(** * Blackjack round engine: a shallow embedding of
    [entities/basic_strategy_player.py] and [main.py].

    Python objects that are mutated in place become records threaded through
    the functions; a Python exception becomes the [Raise] branch of a small
    error monad; the two [while] loops of [round] take a fuel argument. *)

From Stdlib Require Import ZArith List Bool String QArith Qminmax Lia.
From Stdlib Require Import PrimFloat SpecFloat FloatOps FloatAxioms.
Import ListNotations.
Local Open Scope Z_scope.

(** ** Exceptions and the error monad *)

Inductive exn : Type :=
| IndexError    (* [pop] from an empty list, [cards[i]] out of range *)
| KeyError      (* [table.loc[index, column]] on a missing label *)
| AttributeError  (* [dealer.up_card] read before a card was dealt *)
| OverflowError   (* int too large to convert to float *)
| OutOfFuel.    (* the loop did not finish within the given fuel *)

Inductive result (A : Type) : Type :=
| Ok (a : A)
| Raise (e : exn).
Arguments Ok {A} a.
Arguments Raise {A} e.

Definition bind {A B : Type} (m : result A) (k : A -> result B) : result B :=
  match m with
  | Ok a => k a
  | Raise e => Raise e
  end.

Declare Scope py_scope.
Delimit Scope py_scope with py.
Notation "x <- m ;; k" := (bind m (fun x => k))
  (at level 61, m at next level, right associativity) : py_scope.
Notation "' p <- m ;; k" := (bind m (fun r => match r with p => k end))
  (at level 61, p pattern, m at next level, right associativity) : py_scope.
Local Open Scope py_scope.

(** Python lists keep the source's orientation: index 0 first, [append] and
    [pop] work at the end. *)
Definition py_append {A : Type} (l : list A) (x : A) : list A := l ++ [x].

Fixpoint py_pop {A : Type} (l : list A) : result (A * list A) :=
  match l with
  | [] => Raise IndexError
  | [x] => Ok (x, [])
  | x :: tl => '(y, tl') <- py_pop tl ;; Ok (y, x :: tl')
  end.

Definition py_index {A : Type} (l : list A) (i : nat) : result A :=
  match nth_error l i with
  | Some x => Ok x
  | None => Raise IndexError
  end.

Definition py_len {A : Type} (l : list A) : Z := Z.of_nat (List.length l).

(** ** Numbers

    Bets and earnings are Python numbers: [int]s at first, [float]s once a
    count-adjusted bet or a blackjack payout ([*= 1.5]) has been involved.
    The engine is written once over the operations it uses; the instances
    below read them as exact rationals and as binary64 floats.  An int
    literal ([0], [2], [52.0], [1000]) is [of_int]; an int held in a variable
    that meets a float, or goes through [float(...)], is converted by
    [to_float], which gives [None] where Python raises [OverflowError]
    (never, in exact arithmetic). *)

Class PyNum (N : Type) : Type := {
  of_int : Z -> N;        (* an int literal *)
  to_float : Z -> option N;   (* [float(n)]; [None] is [OverflowError] *)
  lit_1_5 : N;            (* the literal [1.5] *)
  add : N -> N -> N;
  sub : N -> N -> N;
  mul : N -> N -> N;
  div : N -> N -> N;
  gtb : N -> N -> bool      (* [a > b] *)
}.

(** [max(a, b)]: Python keeps the first argument unless the second is
    strictly greater. *)
Definition py_max {N : Type} `{PyNum N} (a b : N) : N :=
  if gtb b a then b else a.

#[global] Instance PyNum_Q : PyNum Q := {
  of_int := inject_Z;
  to_float := fun z => Some (inject_Z z);
  lit_1_5 := 3 # 2;
  add := Qplus;
  sub := Qminus;
  mul := Qmult;
  div := Qdiv;
  gtb := fun a b => negb (Qle_bool a b)
}.

(** An int literal read as a float: the nearest binary64 value, which for
    the literals of the source ([0], [2], [52.0], [1000]) is the literal
    itself.  The engine applies it to its literals only; an int held in a
    variable is converted by [py_float]. *)
Definition float_of_int (z : Z) : float :=
  SF2Prim (binary_normalize prec emax z 0 false).

(** The conversion of an int as Python makes it: the nearest binary64 value,
    ties to even, and [OverflowError] when that value is an infinity. *)
Definition py_float (z : Z) : option float :=
  match binary_normalize prec emax z 0 false with
  | S754_infinity _ => None
  | s => Some (SF2Prim s)
  end.

(** [52.0] as sign, mantissa and exponent. *)
Definition spec_52 : spec_float := S754_finite false 7318349394477056 (-47).

#[global] Instance PyNum_float : PyNum float := {
  of_int := float_of_int;
  to_float := py_float;
  lit_1_5 := 1.5%float;
  add := PrimFloat.add;
  sub := PrimFloat.sub;
  mul := PrimFloat.mul;
  div := PrimFloat.div;
  gtb := fun a b => PrimFloat.ltb b a
}.

(** A conversion inside the engine. *)
Definition convert {N : Type} `{PyNum N} (z : Z) : result N :=
  match to_float z with
  | Some f => Ok f
  | None => Raise OverflowError
  end.

(** ** Cards *)

Module Card.

(** Modelled from the spec: the [Card] class (blackjack/card.py) is not
    among the sources.  A card has a rank among 2..10, jack, queen, king,
    ace, a suit that plays no role, and a numeric value fixed by the rank,
    the ace being worth 11. *)
Inductive Rank : Type :=
| R2 | R3 | R4 | R5 | R6 | R7 | R8 | R9 | R10 | jack | queen | king | ace.

Inductive Suit : Type := spades | hearts | diamonds | clubs.

Record t : Type := mk { rank : Rank; suit : Suit }.

Definition rank_eqb (r1 r2 : Rank) : bool :=
    match r1, r2 with
    | R2, R2 | R3, R3 | R4, R4 | R5, R5 | R6, R6 | R7, R7 | R8, R8
    | R9, R9 | R10, R10 | jack, jack | queen, queen | king, king
    | ace, ace => true
    | _, _ => false
    end.

(** Modelled from the spec: [card.value], the numeric blackjack value. *)
Definition value (c : t) : Z :=
    match rank c with
    | R2 => 2 | R3 => 3 | R4 => 4 | R5 => 5 | R6 => 6 | R7 => 7 | R8 => 8
    | R9 => 9 | R10 => 10 | jack => 10 | queen => 10 | king => 10
    | ace => 11
    end.

(** Modelled from the spec: [Card.__eq__] is structural equality on the
    rank ([card == Card('ace', 'spades')] asks whether [card] is an ace,
    [cards[0] == cards[1]] whether the two cards are a pair). *)
Definition eqb (c1 c2 : t) : bool := rank_eqb (rank c1) (rank c2).

End Card.

(** ** Hands *)

Module Hand.

(** The attributes [main.py] and [hit_me] read and write on a hand.
    [new] is [Hand()]. *)
Record t : Type := mk { cards : list Card.t; value : Z; aces : Z }.

Definition new : t := mk [] 0 0.

Definition set_cards (h : t) (cs : list Card.t) : t := mk cs (value h) (aces h).
Definition set_value (h : t) (v : Z) : t := mk (cards h) v (aces h).
Definition set_aces (h : t) (a : Z) : t := mk (cards h) (value h) a.

End Hand.

(** ** The shoe *)

Module Deck.

(** The attributes [hit_me] reads and writes on the shoe, and the number of
    reshuffles so far, which indexes the random source. *)
Record t : Type := mk {
  cards : list Card.t;
  number_of_decks : Z;
  cards_left : Z;
  shuffles : nat
}.

Definition set_cards (d : t) (cs : list Card.t) : t :=
  mk cs (number_of_decks d) (cards_left d) (shuffles d).
Definition set_cards_left (d : t) (n : Z) : t :=
  mk (cards d) (number_of_decks d) n (shuffles d).

(** Modelled from the spec: [deck.is_empty()] is [cards_left == 0]. *)
Definition is_empty (d : t) : bool := cards_left d =? 0.

End Deck.

(** ** The player's attributes ([BasicPlayer.__init__]) *)

Module BasicPlayer.

(** [count] exists on the Python object only when [card_counting] is set; it
    is read and written only under that flag, and is kept at 0 otherwise. *)
Record t (N : Type) : Type := mk {
  hand : Hand.t;
  name : string;
  is_done : bool;
  current_bet : N;
  total_bets : N;
  total_earnings : N;
  rounds : Z;
  wins : Z;
  draws : Z;
  losses : Z;
  busts : Z;
  stands : Z;
  card_counting : bool;
  count : Z
}.
Arguments mk {N}.
Arguments hand {N}.
Arguments name {N}.
Arguments is_done {N}.
Arguments current_bet {N}.
Arguments total_bets {N}.
Arguments total_earnings {N}.
Arguments rounds {N}.
Arguments wins {N}.
Arguments draws {N}.
Arguments losses {N}.
Arguments busts {N}.
Arguments stands {N}.
Arguments card_counting {N}.
Arguments count {N}.

Section Setters.
Context {N : Type}.
Implicit Type p : t N.

Definition set_hand p (x : Hand.t) : t N :=
  mk x (name p) (is_done p) (current_bet p) (total_bets p) (total_earnings p)
     (rounds p) (wins p) (draws p) (losses p) (busts p) (stands p)
     (card_counting p) (count p).
Definition set_is_done p (x : bool) : t N :=
  mk (hand p) (name p) x (current_bet p) (total_bets p) (total_earnings p)
     (rounds p) (wins p) (draws p) (losses p) (busts p) (stands p)
     (card_counting p) (count p).
Definition set_current_bet p (x : N) : t N :=
  mk (hand p) (name p) (is_done p) x (total_bets p) (total_earnings p)
     (rounds p) (wins p) (draws p) (losses p) (busts p) (stands p)
     (card_counting p) (count p).
Definition set_total_bets p (x : N) : t N :=
  mk (hand p) (name p) (is_done p) (current_bet p) x (total_earnings p)
     (rounds p) (wins p) (draws p) (losses p) (busts p) (stands p)
     (card_counting p) (count p).
Definition set_total_earnings p (x : N) : t N :=
  mk (hand p) (name p) (is_done p) (current_bet p) (total_bets p) x
     (rounds p) (wins p) (draws p) (losses p) (busts p) (stands p)
     (card_counting p) (count p).
Definition set_rounds p (x : Z) : t N :=
  mk (hand p) (name p) (is_done p) (current_bet p) (total_bets p)
     (total_earnings p) x (wins p) (draws p) (losses p) (busts p) (stands p)
     (card_counting p) (count p).
Definition set_wins p (x : Z) : t N :=
  mk (hand p) (name p) (is_done p) (current_bet p) (total_bets p)
     (total_earnings p) (rounds p) x (draws p) (losses p) (busts p) (stands p)
     (card_counting p) (count p).
Definition set_draws p (x : Z) : t N :=
  mk (hand p) (name p) (is_done p) (current_bet p) (total_bets p)
     (total_earnings p) (rounds p) (wins p) x (losses p) (busts p) (stands p)
     (card_counting p) (count p).
Definition set_losses p (x : Z) : t N :=
  mk (hand p) (name p) (is_done p) (current_bet p) (total_bets p)
     (total_earnings p) (rounds p) (wins p) (draws p) x (busts p) (stands p)
     (card_counting p) (count p).
Definition set_busts p (x : Z) : t N :=
  mk (hand p) (name p) (is_done p) (current_bet p) (total_bets p)
     (total_earnings p) (rounds p) (wins p) (draws p) (losses p) x (stands p)
     (card_counting p) (count p).
Definition set_stands p (x : Z) : t N :=
  mk (hand p) (name p) (is_done p) (current_bet p) (total_bets p)
     (total_earnings p) (rounds p) (wins p) (draws p) (losses p) (busts p) x
     (card_counting p) (count p).
Definition set_count p (x : Z) : t N :=
  mk (hand p) (name p) (is_done p) (current_bet p) (total_bets p)
     (total_earnings p) (rounds p) (wins p) (draws p) (losses p) (busts p)
     (stands p) (card_counting p) x.

End Setters.

(** [BasicPlayer(name, card_counting)]. *)
Definition new {N : Type} `{PyNum N} (nm : string) (counting : bool) : t N :=
  mk Hand.new nm false (of_int 0) (of_int 0) (of_int 0) 0 0 0 0 0 0 counting 0.

End BasicPlayer.

(** ** The dealer's attributes *)

Module Dealer.

(** The attributes [main.py] and the player read and write on the dealer:
    its hand, [is_done], and [up_card], unset until a round has started. *)
Record t : Type := mk {
  hand : Hand.t;
  is_done : bool;
  up_card : option Card.t
}.

Definition set_hand (d : t) (h : Hand.t) : t := mk h (is_done d) (up_card d).
Definition set_is_done (d : t) (b : bool) : t := mk (hand d) b (up_card d).
Definition set_up_card (d : t) (c : option Card.t) : t := mk (hand d) (is_done d) c.

Definition new : t := mk Hand.new false None.

End Dealer.

(** ** The value of a hand, as the ace-adjustment rule derives it from the
    cards *)

Definition is_ace (c : Card.t) : bool := Card.rank_eqb (Card.rank c) Card.ace.

(** Sum of the face values, every ace at 11. *)
Definition face_total (cs : list Card.t) : Z :=
  fold_right (fun c acc => Card.value c + acc) 0 cs.

Definition ace_total (cs : list Card.t) : Z :=
  py_len (filter is_ace cs).

(** While the total exceeds 21 and an ace counted as 11 remains, one ace is
    taken from 11 down to 1. *)
Fixpoint adjust (fuel : nat) (v a : Z) : Z * Z :=
  match fuel with
  | O => (v, a)
  | S fuel' => if (v >? 21) && (a >? 0) then adjust fuel' (v - 10) (a - 1) else (v, a)
  end.

(** The pair (value, aces counted as 11) the rule gives for a card
    sequence. *)
Definition derived_value (cs : list Card.t) : Z * Z :=
  adjust (Z.to_nat (ace_total cs)) (face_total cs) (ace_total cs).

Definition hand_consistent (h : Hand.t) : Prop :=
  (Hand.value h, Hand.aces h) = derived_value (Hand.cards h).

(** ** Sample data

    Hi-Lo counting weights, a small strategy and shoes written in the order
    their cards are drawn: the data the concrete runs below are made on. *)

Module Sample.

Definition card (r : Card.Rank) : Card.t := Card.mk r Card.hearts.

Definition hi_lo (c : Card.t) : Z :=
  match Card.rank c with
  | Card.R2 | Card.R3 | Card.R4 | Card.R5 | Card.R6 => 1
  | Card.R7 | Card.R8 | Card.R9 => 0
  | _ => -1
  end.

(** Hard totals 4..21: double on 11, stand from 17, hit otherwise. *)
Definition hard (v : Z) (up : Card.Rank) : result string :=
  if (v <? 4) || (v >? 21) then Raise KeyError
  else if v =? 11 then Ok "d"%string
  else if v <? 17 then Ok "h"%string
  else Ok "s"%string.

(** Soft totals 12..21: stand from 18, hit otherwise. *)
Definition soft (v : Z) (up : Card.Rank) : result string :=
  if (v <? 12) || (v >? 21) then Raise KeyError
  else if v <? 18 then Ok "h"%string
  else Ok "s"%string.

(** Hard totals 4..21 that double from 9 to 12. *)
Definition hard_rash (v : Z) (up : Card.Rank) : result string :=
  if (v <? 4) || (v >? 21) then Raise KeyError
  else if (9 <=? v) && (v <=? 12) then Ok "d"%string
  else if v <? 17 then Ok "h"%string
  else Ok "s"%string.


(** A hard-totals table with a cell that is none of "h", "s", "d". *)
Definition hard_typo (v : Z) (up : Card.Rank) : result string :=
  if v =? 16 then Ok "x"%string else hard v up.

(** Pairs: split aces and eights. *)
Definition pairs (r up : Card.Rank) : result string :=
  match r with
  | Card.ace | Card.R8 => Ok "y"%string
  | _ => Ok "n"%string
  end.

(** A shoe from which [draws] come out in the order written. *)
Definition shoe (draws : list Card.Rank) : Deck.t :=
  Deck.mk (rev (map card draws)) 1 (py_len draws) 0.

(** Every reshuffle brings the same eight cards, drawn in the order
    written. *)
Definition shuffled (k : nat) (n : Z) : list Card.t :=
  rev (map card [Card.R10; Card.R9; Card.R5; Card.R3; Card.R7; Card.king; Card.R2; Card.R6]).

Definition player : BasicPlayer.t Q := BasicPlayer.new "Player" false.
Definition counter : BasicPlayer.t Q := BasicPlayer.new "Player" true.

Definition hand_of (ranks : list Card.Rank) (value aces : Z) : Hand.t :=
  Hand.mk (map card ranks) value aces.

(** A player with 1000 on the table and the given hand, the turn over. *)
Definition holding (h : Hand.t) : BasicPlayer.t Q :=
  BasicPlayer.mk h "Player" true (1000 # 1) (1000 # 1) (0 # 1) 0 0 0 0 0 0 false 0.

(** The same player still to act. *)
Definition to_act (h : Hand.t) : BasicPlayer.t Q :=
  BasicPlayer.mk h "Player" false (1000 # 1) (1000 # 1) (0 # 1) 0 0 0 0 0 0 false 0.

(** A player between rounds with four rounds on the sheet. *)
Definition scored : BasicPlayer.t Q :=
  BasicPlayer.mk Hand.new "Player" false (0 # 1) (4000 # 1) (0 # 1) 4 1 1 2 1 3 false 0.

(** A dealer showing a ten, with the given hand. *)
Definition dealer_with (h : Hand.t) (done : bool) : Dealer.t :=
  Dealer.mk h done (Some (card Card.R10)).

End Sample.

(** ** The engine *)

Section Engine.

Context {N : Type} `{PyNum N}.

(** [card.count_value]: the counting weight of a card (the [Card] class is
    not among the sources, so the weights are a parameter). *)
Variable count_value : Card.t -> Z.

(** The random source: [shuffled k n] is the shoe produced by the [k]-th call
    of [deck.shuffle(n)], in list order (the last card is drawn first). *)
Variable shuffled : nat -> Z -> list Card.t.

(** The three strategy tables ([HardTotals.table.loc[index, column]] and so
    on): data outside the sources.  A missing label raises. *)
Variable hard_table : Z -> Card.Rank -> result string.
Variable soft_table : Z -> Card.Rank -> result string.
Variable split_table : Card.Rank -> Card.Rank -> result string.

Local Notation "'Player'" := (BasicPlayer.t N).

(** Modelled from the spec: [deck.shuffle(number_of_decks)] (blackjack/deck.py
    is not among the sources) replaces the shoe by freshly shuffled decks and
    sets [cards_left] to their number. *)
Definition shuffle (deck : Deck.t) (number_of_decks : Z) : Deck.t :=
  let cs := shuffled (Deck.shuffles deck) number_of_decks in
  Deck.mk cs (Deck.number_of_decks deck) (py_len cs) (S (Deck.shuffles deck)).

(** [while hand.aces > 0 and hand.value > 21: value -= 10; aces -= 1].
    Every iteration decrements [aces], so [aces] iterations are enough
    ([soften_aces_done] below). *)
Fixpoint soften (fuel : nat) (h : Hand.t) : Hand.t :=
  match fuel with
  | O => h
  | S fuel' =>
      if (Hand.aces h >? 0) && (Hand.value h >? 21)
      then soften fuel' (Hand.mk (Hand.cards h) (Hand.value h - 10) (Hand.aces h - 1))
      else h
  end.

Definition soften_aces (h : Hand.t) : Hand.t := soften (Z.to_nat (Hand.aces h)) h.

Definition ace_instance : Card.t := Card.mk Card.ace Card.spades.

(** *** [BasicPlayer] methods *)

Definition hit_me (p : Player) (deck : Deck.t) : result (Player * Deck.t) :=
  (* If deck is empty, replace and shuffle; reset count *)
  let '(p, deck) :=
    if Deck.is_empty deck
    then (if BasicPlayer.card_counting p then BasicPlayer.set_count p 0 else p,
          shuffle deck (Deck.number_of_decks deck))
    else (p, deck) in
  (* card = deck.cards.pop(); self.hand.cards.append(card) *)
  '(card, rest) <- py_pop (Deck.cards deck) ;;
  let deck := Deck.set_cards deck rest in
  let h := BasicPlayer.hand p in
  let h := Hand.set_cards h (py_append (Hand.cards h) card) in
  (* Add to count *)
  let p := if BasicPlayer.card_counting p
           then BasicPlayer.set_count p (BasicPlayer.count p + count_value card)
           else p in
  let deck := Deck.set_cards_left deck (Deck.cards_left deck - 1) in
  (* Update hand value *)
  let h := Hand.set_value h (Hand.value h + Card.value card) in
  (* Check for aces *)
  let h := if Card.eqb card ace_instance then Hand.set_aces h (Hand.aces h + 1) else h in
  let h := soften_aces h in
  let p := BasicPlayer.set_hand p h in
  (* bust, or blackjack *)
  if Hand.value h >? 21 then Ok (BasicPlayer.set_is_done p true, deck)
  else if (py_len (Hand.cards h) =? 2) && (Hand.value h =? 21)
       then Ok (BasicPlayer.set_is_done p true, deck)
       else Ok (p, deck).

Definition up_card_rank (dealer : Dealer.t) : result Card.Rank :=
  match Dealer.up_card dealer with
  | Some c => Ok (Card.rank c)
  | None => Raise AttributeError
  end.

Definition _search_split_table (p : Player) (dealer : Dealer.t) : result string :=
  c0 <- py_index (Hand.cards (BasicPlayer.hand p)) 0 ;;
  column <- up_card_rank dealer ;;
  split_table (Card.rank c0) column.

Definition _search_hard_table (p : Player) (dealer : Dealer.t) : result string :=
  column <- up_card_rank dealer ;;
  hard_table (Hand.value (BasicPlayer.hand p)) column.

Definition _search_soft_table (p : Player) (dealer : Dealer.t) : result string :=
  column <- up_card_rank dealer ;;
  soft_table (Hand.value (BasicPlayer.hand p)) column.

Definition get_other_decision (p : Player) (dealer : Dealer.t) : result string :=
  let deck_length := py_len (Hand.cards (BasicPlayer.hand p)) in
  if Hand.aces (BasicPlayer.hand p) >? 0 then
    decision <- _search_soft_table p dealer ;;
    if (decision =? "d")%string && (deck_length >? 2) then Ok "h"%string else Ok decision
  else
    decision <- _search_hard_table p dealer ;;
    if (decision =? "d")%string && (deck_length >? 2) then Ok "h"%string else Ok decision.

Definition get_split_decision (p : Player) (dealer : Dealer.t) : result string :=
  let cs := Hand.cards (BasicPlayer.hand p) in
  let deck_length := py_len cs in
  c0 <- py_index cs 0 ;;
  c1 <- py_index cs 1 ;;
  let first_two_match := Card.eqb c0 c1 in
  if (deck_length =? 2) && first_two_match then _search_split_table p dealer
  else Ok "n"%string.

Definition doubles (p : Player) : Player :=
  let p := BasicPlayer.set_total_bets p
             (add (BasicPlayer.total_bets p) (BasicPlayer.current_bet p)) in
  let p := BasicPlayer.set_current_bet p (mul (BasicPlayer.current_bet p) (of_int 2)) in
  BasicPlayer.set_is_done p true.

Definition stand (p : Player) : Player :=
  let p := BasicPlayer.set_is_done p true in
  BasicPlayer.set_stands p (BasicPlayer.stands p + 1).

Definition round_outcome (p : Player) (win draw loss : bool) : Player :=
  let p := BasicPlayer.set_rounds p (BasicPlayer.rounds p + 1) in
  let p :=
    if win then
      let p := BasicPlayer.set_wins p (BasicPlayer.wins p + 1) in
      BasicPlayer.set_total_earnings p
        (add (BasicPlayer.total_earnings p) (BasicPlayer.current_bet p))
    else if loss then
      let p := BasicPlayer.set_losses p (BasicPlayer.losses p + 1) in
      BasicPlayer.set_total_earnings p
        (sub (BasicPlayer.total_earnings p) (BasicPlayer.current_bet p))
    else if draw then
      BasicPlayer.set_draws p (BasicPlayer.draws p + 1)
    else p in
  let p := BasicPlayer.set_current_bet p (of_int 0) in
  BasicPlayer.set_is_done p false.

Definition gets_blackjack (p : Player) : Player :=
  let p := BasicPlayer.set_current_bet p (mul (BasicPlayer.current_bet p) lit_1_5) in
  let p := BasicPlayer.set_is_done p true in
  round_outcome p true false false.

Definition goes_bust (p : Player) : Player :=
  let p := BasicPlayer.set_busts p (BasicPlayer.busts p + 1) in
  round_outcome p false false true.

Definition start_round (p : Player) (deck : Deck.t) (bet : N) : result (Player * Deck.t) :=
  let p := BasicPlayer.set_current_bet p bet in
  let p := BasicPlayer.set_total_bets p (add (BasicPlayer.total_bets p) bet) in
  '(p, deck) <- hit_me p deck ;;
  hit_me p deck.

Definition split (p : Player) : Player :=
  let split_player : Player := BasicPlayer.new "Dummy" false in
  let split_player := BasicPlayer.set_current_bet split_player (BasicPlayer.current_bet p) in
  let split_player := BasicPlayer.set_total_bets split_player (BasicPlayer.current_bet p) in
  BasicPlayer.set_total_earnings split_player (of_int 0).

Definition add_totals (p : Player) (other : option Player) : Player :=
  match other with
  | None => p
  | Some o =>
      let p := BasicPlayer.set_total_bets p
                 (add (BasicPlayer.total_bets p) (BasicPlayer.total_bets o)) in
      let p := BasicPlayer.set_total_earnings p
                 (add (BasicPlayer.total_earnings p) (BasicPlayer.total_earnings o)) in
      let p := BasicPlayer.set_rounds p (BasicPlayer.rounds p + BasicPlayer.rounds o) in
      let p := BasicPlayer.set_wins p (BasicPlayer.wins p + BasicPlayer.wins o) in
      let p := BasicPlayer.set_draws p (BasicPlayer.draws p + BasicPlayer.draws o) in
      let p := BasicPlayer.set_losses p (BasicPlayer.losses p + BasicPlayer.losses o) in
      let p := BasicPlayer.set_busts p (BasicPlayer.busts p + BasicPlayer.busts o) in
      BasicPlayer.set_stands p (BasicPlayer.stands p + BasicPlayer.stands o)
  end.

Definition calculate_bet (zen_count bet_unit cards_left : Z) : result N :=
  (* Calculate the True Count: [cards_left / 52.0] converts [cards_left] *)
  cards_left' <- convert cards_left ;;
  let decks_remaining := div cards_left' (of_int 52) in
  (* [float(zen_count)], in either branch *)
  zen_count' <- convert zen_count ;;
  let true_count :=
    if gtb decks_remaining (of_int 0)
    then div zen_count' decks_remaining
    else zen_count' in
  (* Calculate the bet based on the multiplier: [bet_unit * true_count]
     converts [bet_unit] *)
  bet_unit' <- convert bet_unit ;;
  let bet := mul bet_unit' true_count in
  (* Ensure bet > 0 *)
  Ok (py_max bet (of_int 0)).

(** *** The dealer *)

(** Modelled from the spec: [dealer.hit_me(deck, player)] (entities/dealer.py
    is not among the sources) draws as the player does: an empty shoe is
    reshuffled first, the card goes to the dealer's hand with the same ace
    adjustment, a bust or a two-card 21 ends the dealer's turn; the count of
    the player passed in follows the draw when that player counts cards. *)
Definition dealer_hit_me (dealer : Dealer.t) (deck : Deck.t) (p : Player)
  : result (Dealer.t * Deck.t * Player) :=
  let '(p, deck) :=
    if Deck.is_empty deck
    then (if BasicPlayer.card_counting p then BasicPlayer.set_count p 0 else p,
          shuffle deck (Deck.number_of_decks deck))
    else (p, deck) in
  '(card, rest) <- py_pop (Deck.cards deck) ;;
  let deck := Deck.set_cards deck rest in
  let h := Dealer.hand dealer in
  let h := Hand.set_cards h (py_append (Hand.cards h) card) in
  let p := if BasicPlayer.card_counting p
           then BasicPlayer.set_count p (BasicPlayer.count p + count_value card)
           else p in
  let deck := Deck.set_cards_left deck (Deck.cards_left deck - 1) in
  let h := Hand.set_value h (Hand.value h + Card.value card) in
  let h := if Card.eqb card ace_instance then Hand.set_aces h (Hand.aces h + 1) else h in
  let h := soften_aces h in
  let dealer := Dealer.set_hand dealer h in
  if Hand.value h >? 21 then Ok (Dealer.set_is_done dealer true, deck, p)
  else if (py_len (Hand.cards h) =? 2) && (Hand.value h =? 21)
       then Ok (Dealer.set_is_done dealer true, deck, p)
       else Ok (dealer, deck, p).

(** Modelled from the spec: [dealer.start_round(deck, player)] deals the
    dealer two cards; the first one becomes [up_card]. *)
Definition dealer_start_round (dealer : Dealer.t) (deck : Deck.t) (p : Player)
  : result (Dealer.t * Deck.t * Player) :=
  '(dealer, deck, p) <- dealer_hit_me dealer deck p ;;
  '(dealer, deck, p) <- dealer_hit_me dealer deck p ;;
  up <- py_index (Hand.cards (Dealer.hand dealer)) 0 ;;
  Ok (Dealer.set_up_card dealer (Some up), deck, p).

(** Modelled from the spec: [dealer.get_decision()] hits below 17 and stands
    from 17 on. *)
Definition dealer_get_decision (dealer : Dealer.t) : string :=
  if Hand.value (Dealer.hand dealer) <? 17 then "h"%string else "s"%string.

(** Modelled from the spec: [dealer.stand()] ends the dealer's turn. *)
Definition dealer_stand (dealer : Dealer.t) : Dealer.t := Dealer.set_is_done dealer true.

(** Modelled from the spec: [dealer.goes_bust()] reports the bust; the dealer
    keeps no statistics. *)
Definition dealer_goes_bust (dealer : Dealer.t) : Dealer.t := dealer.

(** *** [main.py]: one round *)

(** [round]'s fourth argument is only tested against [None]; [dummy] is
    [true] when a dummy player is passed. *)
Definition ace_split_draw (player : Player) (deck : Deck.t) (dummy : bool)
  : result (Player * Deck.t) :=
  if dummy then
    c0 <- py_index (Hand.cards (BasicPlayer.hand player)) 0 ;;
    if Card.rank_eqb (Card.rank c0) Card.ace then
      let h := BasicPlayer.hand player in
      let h := Hand.set_value h 11 in
      let h := Hand.set_aces h 1 in
      hit_me (BasicPlayer.set_hand player h) deck
    else Ok (player, deck)
  else Ok (player, deck).

(** Player decision loop. *)
Fixpoint player_loop (fuel : nat) (player : Player) (dealer : Dealer.t) (deck : Deck.t)
  : result (Player * Deck.t) :=
  if BasicPlayer.is_done player then Ok (player, deck)
  else match fuel with
  | O => Raise OutOfFuel
  | S fuel' =>
      decision <- get_other_decision player dealer ;;
      if (decision =? "h")%string then
        '(player, deck) <- hit_me player deck ;;
        player_loop fuel' player dealer deck
      else if (decision =? "s")%string then
        player_loop fuel' (stand player) dealer deck
      else if (decision =? "d")%string then
        '(player, deck) <- hit_me player deck ;;
        player_loop fuel' (doubles player) dealer deck
      else player_loop fuel' player dealer deck
  end.

(** Dealer decision loop. *)
Fixpoint dealer_loop (fuel : nat) (player : Player) (dealer : Dealer.t) (deck : Deck.t)
  : result (Player * Dealer.t * Deck.t) :=
  if Dealer.is_done dealer then Ok (player, dealer, deck)
  else match fuel with
  | O => Raise OutOfFuel
  | S fuel' =>
      let decision := dealer_get_decision dealer in
      if (decision =? "h")%string then
        '(dealer, deck, player) <- dealer_hit_me dealer deck player ;;
        dealer_loop fuel' player dealer deck
      else if (decision =? "s")%string then
        dealer_loop fuel' player (dealer_stand dealer) deck
      else dealer_loop fuel' player dealer deck
  end.

(** The guard of the dealer decision loop. *)
Definition dealer_turn_entered (player : Player) : bool :=
  Hand.value (BasicPlayer.hand player) <? 21.

Definition dealer_turn (fuel : nat) (player : Player) (dealer : Dealer.t) (deck : Deck.t)
  : result (Player * Dealer.t * Deck.t) :=
  if dealer_turn_entered player then dealer_loop fuel player dealer deck
  else Ok (player, dealer, deck).

(** [round] up to the end of the two decision loops. *)
Definition round_play (fuel : nat) (player : Player) (dealer : Dealer.t) (deck : Deck.t)
    (dummy : bool) : result (Player * Dealer.t * Deck.t) :=
  '(player, deck) <- ace_split_draw player deck dummy ;;
  '(player, deck) <- player_loop fuel player dealer deck ;;
  dealer_turn fuel player dealer deck.

(** [round] from "Check for busts" to the last comparison. *)
Definition settle (player : Player) (dealer : Dealer.t) : Player * Dealer.t :=
  let pv := Hand.value (BasicPlayer.hand player) in
  let dv := Hand.value (Dealer.hand dealer) in
  if pv >? 21 then (goes_bust player, dealer)
  else if dv >? 21 then
    let dealer := dealer_goes_bust dealer in
    (round_outcome player true false false, dealer)
  else if (pv =? 21) && (py_len (Hand.cards (BasicPlayer.hand player)) =? 2) then
    (gets_blackjack player, dealer)
  else if pv >? dv then (round_outcome player true false false, dealer)
  else if pv <? dv then (round_outcome player false false true, dealer)
  else (round_outcome player false true false, dealer).

(** Clear hands; reset [dealer.is_done]. *)
Definition clear_hands (player : Player) (dealer : Dealer.t) : Player * Dealer.t :=
  let dealer := Dealer.set_hand dealer Hand.new in
  let player := BasicPlayer.set_hand player Hand.new in
  (player, Dealer.set_is_done dealer false).

Definition round (fuel : nat) (player : Player) (dealer : Dealer.t) (deck : Deck.t)
    (dummy : bool) : result (Player * Dealer.t * Deck.t) :=
  '(player, dealer, deck) <- round_play fuel player dealer deck dummy ;;
  let '(player, dealer) := settle player dealer in
  let '(player, dealer) := clear_hands player dealer in
  Ok (player, dealer, deck).

(** [init_round] up to the point where the split has been carried out:
    the bet, the deal, the split decision and, on a split, the card transfer,
    the two draws and the value patch.  The dummy is [None] without a split. *)
Definition deal_and_split (player : Player) (dealer : Dealer.t) (deck : Deck.t)
  : result (Player * option Player * Dealer.t * Deck.t) :=
  let bet := 1000 in
  '(player, deck) <-
    (if BasicPlayer.card_counting player then
       adjusted_bet <- calculate_bet (BasicPlayer.count player) bet (Deck.cards_left deck) ;;
       start_round player deck adjusted_bet
     else start_round player deck (of_int bet)) ;;
  '(dealer, deck, player) <- dealer_start_round dealer deck player ;;
  decision <- get_split_decision player dealer ;;
  if (decision =? "y")%string then
    let dummy := split player in
    (* Do a manual hit_me() *)
    '(card, rest) <- py_pop (Hand.cards (BasicPlayer.hand player)) ;;
    let player := BasicPlayer.set_hand player (Hand.set_cards (BasicPlayer.hand player) rest) in
    let dummy := BasicPlayer.set_hand dummy
                   (Hand.set_cards (BasicPlayer.hand dummy)
                      (py_append (Hand.cards (BasicPlayer.hand dummy)) card)) in
    '(player, deck) <- hit_me player deck ;;
    '(dummy, deck) <- hit_me dummy deck ;;
    if negb (Card.rank_eqb (Card.rank card) Card.ace) then
      let ph := BasicPlayer.hand player in
      let player := BasicPlayer.set_hand player (Hand.set_value ph (Hand.value ph - Card.value card)) in
      let dh := BasicPlayer.hand dummy in
      let dummy := BasicPlayer.set_hand dummy (Hand.set_value dh (Hand.value dh + Card.value card)) in
      Ok (player, Some dummy, dealer, deck)
    else Ok (player, Some dummy, dealer, deck)
  else Ok (player, None, dealer, deck).

Definition init_round (fuel : nat) (player : Player) (dealer : Dealer.t) (deck : Deck.t)
  : result (Player * Dealer.t * Deck.t) :=
  '(player, dummy, dealer, deck) <- deal_and_split player dealer deck ;;
  match dummy with
  | Some dummy =>
      (* Play round with dummy-hand *)
      '(dummy, dealer, deck) <- round fuel dummy dealer deck true ;;
      (* Add player and dummy's metrics together *)
      let player := add_totals player (Some dummy) in
      round fuel player dealer deck true
  | None =>
      (* Normal round (no split) *)
      round fuel player dealer deck false
  end.



(** *** [main.py]: the session *)

(** [for i in range(num_rounds): init_round(player, dealer, deck)], on the
    player, dealer and shoe the session was started with. *)
Fixpoint play_rounds (fuel : nat) (num_rounds : nat) (player : Player) (dealer : Dealer.t)
    (deck : Deck.t) : result (Player * Dealer.t * Deck.t) :=
  match num_rounds with
  | O => Ok (player, dealer, deck)
  | S n =>
      '(player, dealer, deck) <- init_round fuel player dealer deck ;;
      play_rounds fuel n player dealer deck
  end.

(** *** Predicates of the statements below *)

(** [tuned S A v a]: from a face total [S] with [A] aces, [v] and [a] are
    reached by some number [k] of reductions, the loop has nothing left to do,
    and the last reduction was called for. *)
Definition tuned (S A v a : Z) : Prop :=
  exists k, 0 <= k <= A /\ v = S - 10 * k /\ a = A - k /\
            (a = 0 \/ v <= 21) /\ (0 < k -> 11 < v).

(** What [hit_me] does to the hand once [card] is drawn. *)
Definition drawn_into (h : Hand.t) (card : Card.t) : Hand.t :=
  let h := Hand.set_cards h (py_append (Hand.cards h) card) in
  let h := Hand.set_value h (Hand.value h + Card.value card) in
  let h := if Card.eqb card ace_instance then Hand.set_aces h (Hand.aces h + 1) else h in
  soften_aces h.

(** The six counters of [p'] are those of [p]. *)
Definition same_tallies (p p' : Player) : Prop :=
  BasicPlayer.rounds p' = BasicPlayer.rounds p /\
  BasicPlayer.wins p' = BasicPlayer.wins p /\
  BasicPlayer.draws p' = BasicPlayer.draws p /\
  BasicPlayer.losses p' = BasicPlayer.losses p /\
  BasicPlayer.busts p' = BasicPlayer.busts p /\
  BasicPlayer.stands p' = BasicPlayer.stands p.

(** The bet, the total of bets and the earnings of [p'] are those of [p]. *)
Definition same_money (p p' : Player) : Prop :=
  BasicPlayer.current_bet p' = BasicPlayer.current_bet p /\
  BasicPlayer.total_bets p' = BasicPlayer.total_bets p /\
  BasicPlayer.total_earnings p' = BasicPlayer.total_earnings p.

(** The round, win, draw and loss counts of [p'] are those of [p]. *)
Definition same_scores (p p' : Player) : Prop :=
  BasicPlayer.rounds p' = BasicPlayer.rounds p /\
  BasicPlayer.wins p' = BasicPlayer.wins p /\
  BasicPlayer.draws p' = BasicPlayer.draws p /\
  BasicPlayer.losses p' = BasicPlayer.losses p.

(** One more round, and one more of exactly one of win, draw, loss. *)
Definition one_outcome (p p' : Player) : Prop :=
  BasicPlayer.rounds p' = BasicPlayer.rounds p + 1 /\
  (BasicPlayer.wins p' = BasicPlayer.wins p + 1 /\
   BasicPlayer.draws p' = BasicPlayer.draws p /\
   BasicPlayer.losses p' = BasicPlayer.losses p
   \/
   BasicPlayer.wins p' = BasicPlayer.wins p /\
   BasicPlayer.draws p' = BasicPlayer.draws p + 1 /\
   BasicPlayer.losses p' = BasicPlayer.losses p
   \/
   BasicPlayer.wins p' = BasicPlayer.wins p /\
   BasicPlayer.draws p' = BasicPlayer.draws p /\
   BasicPlayer.losses p' = BasicPlayer.losses p + 1).

(** [rounds == wins + draws + losses]. *)
Definition counters_ok (p : Player) : Prop :=
  BasicPlayer.rounds p = BasicPlayer.wins p + BasicPlayer.draws p + BasicPlayer.losses p.

(** The hand's total with every ace at 1: a draw can only raise it. *)
Definition hard_total (h : Hand.t) : Z := Hand.value h - 10 * Hand.aces h.

(** A table as [DataFrame.loc] gives it: a cell holding "h", "s" or "d", or
    a [KeyError]. *)
Definition answers_known (table : Z -> Card.Rank -> result string) : Prop :=
  forall v up,
    table v up = Raise KeyError \/
    exists answer,
      table v up = Ok answer /\
      (answer = "h"%string \/ answer = "s"%string \/ answer = "d"%string).

(** [cards_left] is the number of cards in the shoe. *)
Definition deck_ok (deck : Deck.t) : Prop :=
  Deck.cards_left deck = py_len (Deck.cards deck).

(** The shoe [hit_me] draws from: reshuffled when [cards_left] is 0. *)
Definition shoe_drawn_from (deck : Deck.t) : Deck.t :=
  if Deck.is_empty deck then shuffle deck (Deck.number_of_decks deck) else deck.

(** The ace count and the total with every ace at 1 are not negative. *)
Definition hand_sane (h : Hand.t) : Prop :=
  0 <= Hand.aces h /\ 0 <= hard_total h.

(** A table that raises nothing but [KeyError]. *)
Definition raises_key_error (table : Card.Rank -> Card.Rank -> result string) : Prop :=
  forall r up e, table r up = Raise e -> e = KeyError.

(** No counter is negative. *)
Definition tallies_nonneg (p : Player) : Prop :=
  0 <= BasicPlayer.rounds p /\ 0 <= BasicPlayer.wins p /\
  0 <= BasicPlayer.draws p /\ 0 <= BasicPlayer.losses p.

(** ** Hands: the running value against the rule *)

Lemma tuned_unique S A v a v' a' :
  tuned S A v a -> tuned S A v' a' -> v = v' /\ a = a'.
Proof.
  intros (k & Hk & -> & -> & Hx & Hl) (k' & Hk' & -> & -> & Hx' & Hl').
  assert (k = k') by lia. subst; split; reflexivity.
Qed.

Lemma adjust_steps fuel : forall v a,
  0 <= a <= Z.of_nat fuel ->
  exists k, 0 <= k <= a /\ fst (adjust fuel v a) = v - 10 * k /\
            snd (adjust fuel v a) = a - k /\
            (snd (adjust fuel v a) = 0 \/ fst (adjust fuel v a) <= 21) /\
            (0 < k -> 11 < fst (adjust fuel v a)).
Proof.
  induction fuel as [|fuel IH]; intros v a Ha.
  - exists 0. simpl. lia.
  - cbn [adjust].
    destruct (v >? 21) eqn:Hv; destruct (a >? 0) eqn:Ha0; cbn [andb fst snd];
      try (exists 0; cbn [fst snd]; lia).
    destruct (IH (v - 10) (a - 1)) as (k & Hk & Hf & Hs & Hx & Hl); [lia|].
    exists (k + 1). rewrite Hf, Hs in *. repeat split; try lia.
Qed.

Lemma adjust_tuned v a :
  0 <= a ->
  tuned v a (fst (adjust (Z.to_nat a) v a)) (snd (adjust (Z.to_nat a) v a)).
Proof.
  intros Ha. destruct (adjust_steps (Z.to_nat a) v a) as (k & Hk & Hf & Hs & Hx & Hl);
    [lia|].
  exists k. repeat split; try lia; auto.
Qed.

Lemma ace_total_nonneg cs : 0 <= ace_total cs.
Proof. unfold ace_total, py_len. lia. Qed.

Lemma derived_value_tuned cs :
  tuned (face_total cs) (ace_total cs) (fst (derived_value cs)) (snd (derived_value cs)).
Proof. apply adjust_tuned, ace_total_nonneg. Qed.

Lemma hand_consistent_tuned h :
  hand_consistent h <->
  tuned (face_total (Hand.cards h)) (ace_total (Hand.cards h)) (Hand.value h) (Hand.aces h).
Proof.
  unfold hand_consistent. split.
  - intros E. pose proof (derived_value_tuned (Hand.cards h)) as T.
    rewrite <- E in T. exact T.
  - intros T. destruct (tuned_unique _ _ _ _ _ _ T (derived_value_tuned (Hand.cards h))) as [E1 E2].
    rewrite (surjective_pairing (derived_value _)). congruence.
Qed.

Lemma face_total_append cs c : face_total (py_append cs c) = face_total cs + Card.value c.
Proof.
  unfold py_append. induction cs as [|x cs IH]; simpl in *; [lia|]. rewrite IH. lia.
Qed.

Lemma ace_total_append cs c :
  ace_total (py_append cs c) = ace_total cs + (if is_ace c then 1 else 0).
Proof.
  unfold ace_total, py_append, py_len. rewrite filter_app, length_app. simpl.
  destruct (is_ace c); simpl; lia.
Qed.

Lemma card_value_pos c : 2 <= Card.value c <= 11.
Proof. unfold Card.value. destruct (Card.rank c); lia. Qed.

Lemma soften_adjust fuel : forall h,
  soften fuel h =
  Hand.mk (Hand.cards h) (fst (adjust fuel (Hand.value h) (Hand.aces h)))
                         (snd (adjust fuel (Hand.value h) (Hand.aces h))).
Proof.
  induction fuel as [|fuel IH]; intros [cs v a]; cbn [soften adjust Hand.cards Hand.value Hand.aces fst snd].
  - reflexivity.
  - rewrite andb_comm. destruct ((v >? 21) && (a >? 0)).
    + rewrite IH. reflexivity.
    + reflexivity.
Qed.

(** The [while] loop of [hit_me] stops because its condition fails, not
    because the iterations allotted to it ran out. *)
Lemma soften_aces_done h :
  0 <= Hand.aces h ->
  (Hand.aces (soften_aces h) >? 0) && (Hand.value (soften_aces h) >? 21) = false.
Proof.
  intros Ha. unfold soften_aces. rewrite soften_adjust. cbn [Hand.aces Hand.value].
  destruct (adjust_steps (Z.to_nat (Hand.aces h)) (Hand.value h) (Hand.aces h))
    as (k & Hk & Hf & Hs & Hx & Hl); [lia|].
  destruct Hx as [Hx|Hx].
  - rewrite Hx. reflexivity.
  - rewrite andb_comm. replace (_ >? 21) with false; [reflexivity|]. symmetry. lia.
Qed.

Lemma drawn_into_cards h card :
  Hand.cards (drawn_into h card) = py_append (Hand.cards h) card.
Proof.
  unfold drawn_into, soften_aces. rewrite soften_adjust.
  destruct (Card.eqb card ace_instance); reflexivity.
Qed.

Lemma drawn_into_consistent h card :
  hand_consistent h -> hand_consistent (drawn_into h card).
Proof.
  rewrite !hand_consistent_tuned. intros (k & Hk & Hv & Ha & Hx & Hl).
  rewrite drawn_into_cards, face_total_append, ace_total_append.
  pose proof (card_value_pos card) as Hc.
  pose proof (ace_total_nonneg (Hand.cards h)) as HA.
  unfold drawn_into, soften_aces. rewrite soften_adjust.
  change (Card.eqb card ace_instance) with (is_ace card).
  set (e := if is_ace card then 1 else 0).
  assert (He : 0 <= e <= 1) by (unfold e; destruct (is_ace card); lia).
  set (h1 := if is_ace card then _ else _).
  assert (E1 : Hand.value h1 = Hand.value h + Card.value card)
    by (unfold h1; destruct (is_ace card); reflexivity).
  assert (E2 : Hand.aces h1 = Hand.aces h + e)
    by (unfold h1, e; destruct (is_ace card); cbn; lia).
  cbn [Hand.cards Hand.value Hand.aces]. rewrite E1, E2.
  destruct (adjust_steps (Z.to_nat (Hand.aces h + e)) (Hand.value h + Card.value card)
              (Hand.aces h + e)) as (j & Hj & Hf & Hs & Hx' & Hl'); [lia|].
  exists (k + j). rewrite Hf, Hs in *. repeat split; try lia.
Qed.

Lemma hit_me_hand p deck p' deck' :
  hit_me p deck = Ok (p', deck') ->
  exists card, BasicPlayer.hand p' = drawn_into (BasicPlayer.hand p) card.
Proof.
  unfold hit_me.
  set (pd := if Deck.is_empty deck then _ else _).
  assert (Hh : BasicPlayer.hand (fst pd) = BasicPlayer.hand p).
  { unfold pd. destruct (Deck.is_empty deck); [|reflexivity].
    destruct (BasicPlayer.card_counting p); reflexivity. }
  destruct pd as [p0 deck0]. cbn [fst] in Hh.
  destruct (py_pop (Deck.cards deck0)) as [[card rest]|]; [|discriminate].
  cbn [bind]. intros E. exists card. rewrite <- Hh.
  destruct (Hand.value _ >? 21); [|destruct (_ && _)]; inversion E; reflexivity.
Qed.

(** X1: a draw keeps the hand's value on its cards: if [value] and [aces]
    are the ones the ace-adjustment rule derives from the cards before
    [hit_me], they are after it. *)
Lemma hit_me_consistent p deck p' deck' :
  hand_consistent (BasicPlayer.hand p) ->
  hit_me p deck = Ok (p', deck') ->
  hand_consistent (BasicPlayer.hand p').
Proof.
  intros Hc E. destruct (hit_me_hand _ _ _ _ E) as [card ->].
  now apply drawn_into_consistent.
Qed.

(** ** What a draw leaves alone *)

Lemma same_tallies_refl p : same_tallies p p.
Proof. repeat split. Qed.

Lemma same_tallies_trans p q r : same_tallies p q -> same_tallies q r -> same_tallies p r.
Proof. unfold same_tallies. intuition congruence. Qed.

Lemma hit_me_frame p deck p' deck' :
  hit_me p deck = Ok (p', deck') ->
  same_tallies p p' /\ same_money p p' /\
  BasicPlayer.card_counting p' = BasicPlayer.card_counting p.
Proof.
  unfold hit_me.
  set (pd := if Deck.is_empty deck then _ else _).
  assert (Hh : same_tallies p (fst pd) /\ same_money p (fst pd) /\
               BasicPlayer.card_counting (fst pd) = BasicPlayer.card_counting p).
  { unfold pd. destruct (Deck.is_empty deck); [|repeat split].
    destruct (BasicPlayer.card_counting p) eqn:Hc; repeat split; exact Hc. }
  destruct pd as [p0 deck0]. cbn [fst] in Hh.
  destruct (py_pop (Deck.cards deck0)) as [[card rest]|]; [|discriminate].
  cbn [bind]. intros E. destruct Hh as (Ht & Hm & Hc).
  unfold same_tallies, same_money in *.
  destruct (BasicPlayer.card_counting p0) eqn:Hc0;
    (destruct (Hand.value _ >? 21); [|destruct (_ && _)]); inversion E; subst p' deck';
    cbn; intuition congruence.
Qed.

Lemma dealer_hit_me_frame dealer deck p dealer' deck' p' :
  dealer_hit_me dealer deck p = Ok (dealer', deck', p') ->
  same_tallies p p' /\ same_money p p' /\
  BasicPlayer.hand p' = BasicPlayer.hand p /\
  BasicPlayer.is_done p' = BasicPlayer.is_done p /\
  Dealer.up_card dealer' = Dealer.up_card dealer.
Proof.
  unfold dealer_hit_me.
  set (pd := if Deck.is_empty deck then _ else _).
  assert (Hh : same_tallies p (fst pd) /\ same_money p (fst pd) /\
               BasicPlayer.hand (fst pd) = BasicPlayer.hand p /\
               BasicPlayer.is_done (fst pd) = BasicPlayer.is_done p).
  { unfold pd. destruct (Deck.is_empty deck); [|repeat split].
    destruct (BasicPlayer.card_counting p) eqn:Hc; repeat split. }
  destruct pd as [p0 deck0]. cbn [fst] in Hh.
  destruct (py_pop (Deck.cards deck0)) as [[card rest]|]; [|discriminate].
  cbn [bind]. intros E. destruct Hh as (Ht & Hm & Hhd & Hd).
  unfold same_tallies, same_money in *.
  destruct (BasicPlayer.card_counting p0) eqn:Hc0;
    (destruct (Hand.value _ >? 21); [|destruct (_ && _)]); inversion E; subst p' deck' dealer';
    cbn; intuition congruence.
Qed.

(** ** The score sheet through a round *)

Ltac bind_ok E :=
  match type of E with
  | bind ?m _ = Ok _ =>
      let r := fresh "r" in
      let Er := fresh "E" in
      destruct m as [r|] eqn:Er; [cbn [bind] in E | discriminate E]
  end.

Lemma calculate_bet_raise zen_count bet_unit cards_left e :
  calculate_bet zen_count bet_unit cards_left = Raise e -> e = OverflowError.
Proof.
  unfold calculate_bet, convert.
  destruct (to_float cards_left); cbn [bind]; [|congruence].
  destruct (to_float zen_count); cbn [bind]; [|congruence].
  destruct (to_float bet_unit); cbn [bind]; congruence.
Qed.

Lemma dealt_bet_ok (player : Player) deck bet r :
  (if BasicPlayer.card_counting player then
     adjusted_bet <- calculate_bet (BasicPlayer.count player) bet (Deck.cards_left deck) ;;
     start_round player deck adjusted_bet
   else start_round player deck (of_int bet)) = Ok r ->
  exists b, start_round player deck b = Ok r.
Proof.
  destruct (BasicPlayer.card_counting player); intros E; [bind_ok E|]; eauto.
Qed.

Lemma dealt_bet_raise (player : Player) deck bet e :
  (if BasicPlayer.card_counting player then
     adjusted_bet <- calculate_bet (BasicPlayer.count player) bet (Deck.cards_left deck) ;;
     start_round player deck adjusted_bet
   else start_round player deck (of_int bet)) = Raise e ->
  e = OverflowError \/ exists b, start_round player deck b = Raise e.
Proof.
  destruct (BasicPlayer.card_counting player); intros E; [|eauto].
  destruct (calculate_bet _ _ _) as [b|e0] eqn:Eb; cbn [bind] in E; [eauto|].
  left. inversion E; subst. eapply calculate_bet_raise, Eb.
Qed.

Lemma same_scores_refl p : same_scores p p.
Proof. repeat split. Qed.

Lemma same_scores_trans p q r : same_scores p q -> same_scores q r -> same_scores p r.
Proof. unfold same_scores. intuition congruence. Qed.

Lemma same_tallies_scores p q : same_tallies p q -> same_scores p q.
Proof. unfold same_tallies, same_scores. intuition. Qed.

Lemma hit_me_scores p deck p' deck' :
  hit_me p deck = Ok (p', deck') -> same_scores p p'.
Proof. intros E. apply same_tallies_scores. apply (hit_me_frame _ _ _ _ E). Qed.

Lemma stand_scores p : same_scores p (stand p).
Proof. repeat split. Qed.

Lemma doubles_scores p : same_scores p (doubles p).
Proof. repeat split. Qed.

Lemma player_loop_scores fuel : forall p dealer deck p' deck',
  player_loop fuel p dealer deck = Ok (p', deck') -> same_scores p p'.
Proof.
  induction fuel as [|fuel IH]; intros p dealer deck p' deck' E; cbn [player_loop] in E;
    destruct (BasicPlayer.is_done p);
    try (inversion E; subst; apply same_scores_refl); try discriminate.
  bind_ok E.
  destruct (r =? "h")%string.
  { bind_ok E. destruct r0 as [p1 deck1].
    eapply same_scores_trans; [eapply hit_me_scores; eassumption|eauto]. }
  destruct (r =? "s")%string.
  { eapply same_scores_trans; [apply stand_scores|eauto]. }
  destruct (r =? "d")%string.
  { bind_ok E. destruct r0 as [p1 deck1].
    eapply same_scores_trans; [eapply hit_me_scores; eassumption|].
    eapply same_scores_trans; [apply doubles_scores|eauto]. }
  eauto.
Qed.

Lemma dealer_loop_scores fuel : forall p dealer deck p' dealer' deck',
  dealer_loop fuel p dealer deck = Ok (p', dealer', deck') -> same_scores p p'.
Proof.
  induction fuel as [|fuel IH]; intros p dealer deck p' dealer' deck' E; cbn [dealer_loop] in E;
    destruct (Dealer.is_done dealer);
    try (inversion E; subst; apply same_scores_refl); try discriminate.
  destruct (dealer_get_decision dealer =? "h")%string.
  { bind_ok E. destruct r as [[d1 deck1] p1].
    eapply same_scores_trans; [|eauto].
    apply same_tallies_scores. apply (dealer_hit_me_frame _ _ _ _ _ _ E0). }
  destruct (dealer_get_decision dealer =? "s")%string; eauto.
Qed.

Lemma ace_split_draw_scores p deck dummy p' deck' :
  ace_split_draw p deck dummy = Ok (p', deck') -> same_scores p p'.
Proof.
  unfold ace_split_draw. intros E. destruct dummy.
  - bind_ok E. destruct (Card.rank_eqb _ _).
    + apply hit_me_scores in E. exact E.
    + inversion E; subst. apply same_scores_refl.
  - inversion E; subst. apply same_scores_refl.
Qed.

Lemma round_play_scores fuel p dealer deck dummy p' dealer' deck' :
  round_play fuel p dealer deck dummy = Ok (p', dealer', deck') -> same_scores p p'.
Proof.
  unfold round_play, dealer_turn. intros E.
  bind_ok E. destruct r as [p1 deck1]. bind_ok E. destruct r as [p2 deck2].
  eapply same_scores_trans; [eapply ace_split_draw_scores; eassumption|].
  eapply same_scores_trans; [eapply player_loop_scores; eassumption|].
  destruct (dealer_turn_entered p2).
  - eapply dealer_loop_scores; eassumption.
  - inversion E; subst. apply same_scores_refl.
Qed.

Lemma settle_one_outcome p dealer : one_outcome p (fst (settle p dealer)).
Proof.
  unfold settle, one_outcome.
  repeat match goal with
         | |- context [if ?b then _ else _] => destruct b
         end; cbn; intuition lia.
Qed.

Lemma round_one_outcome fuel p dealer deck dummy p' dealer' deck' :
  round fuel p dealer deck dummy = Ok (p', dealer', deck') -> one_outcome p p'.
Proof.
  unfold round. intros E. bind_ok E. destruct r as [[p1 d1] deck1].
  pose proof (round_play_scores _ _ _ _ _ _ _ _ E0) as Hs.
  pose proof (settle_one_outcome p1 d1) as Ho.
  destruct (settle p1 d1) as [p2 d2]. cbn [fst] in Ho.
  cbn in E. inversion E; subst. unfold one_outcome, same_scores in *. cbn.
  intuition lia.
Qed.

Lemma start_round_scores p deck bet p' deck' :
  start_round p deck bet = Ok (p', deck') -> same_scores p p'.
Proof.
  unfold start_round. intros E. bind_ok E. destruct r as [p1 deck1].
  apply hit_me_scores in E0. apply hit_me_scores in E.
  unfold same_scores in *. cbn in E0. intuition congruence.
Qed.

Lemma dealer_start_round_scores dealer deck p dealer' deck' p' :
  dealer_start_round dealer deck p = Ok (dealer', deck', p') -> same_scores p p'.
Proof.
  unfold dealer_start_round. intros E.
  bind_ok E. destruct r as [[d1 deck1] p1]. bind_ok E. destruct r as [[d2 deck2] p2].
  bind_ok E. inversion E; subst.
  eapply same_scores_trans; apply same_tallies_scores;
    [apply (dealer_hit_me_frame _ _ _ _ _ _ E0)|apply (dealer_hit_me_frame _ _ _ _ _ _ E1)].
Qed.

Lemma deal_and_split_no_split_scores player dealer deck p1 d1 deck1 :
  deal_and_split player dealer deck = Ok (p1, None, d1, deck1) -> same_scores player p1.
Proof.
  unfold deal_and_split. intros E.
  bind_ok E. destruct r as [p0 deck0].
  assert (H0 : same_scores player p0).
  { destruct (dealt_bet_ok _ _ _ _ E0) as [b Hb].
    eapply start_round_scores, Hb. }
  bind_ok E. destruct r as [[d2 deck2] p2].
  pose proof (dealer_start_round_scores _ _ _ _ _ _ E1) as H1.
  bind_ok E. destruct (r =? "y")%string.
  - bind_ok E. destruct r0 as [card rest]. bind_ok E. destruct r0 as [p3 deck3].
    bind_ok E. destruct r0 as [dm deck4].
    destruct (negb _); discriminate.
  - inversion E; subst. eapply same_scores_trans; eassumption.
Qed.

(** ** Fuel

    A loop that finishes within some fuel finishes with the same result
    within any larger one. *)

Lemma player_loop_fuel fuel : forall p dealer deck r fuel',
  player_loop fuel p dealer deck = Ok r -> (fuel <= fuel')%nat ->
  player_loop fuel' p dealer deck = Ok r.
Proof.
  induction fuel as [|fuel IH]; intros p dealer deck r fuel' E Hle;
    cbn [player_loop] in E; destruct (BasicPlayer.is_done p) eqn:Hd;
    try discriminate;
    try (destruct fuel'; cbn [player_loop]; rewrite Hd; exact E).
  destruct fuel' as [|fuel']; [lia|]. cbn [player_loop]. rewrite Hd.
  destruct (get_other_decision p dealer) as [dec|]; [cbn [bind] in *|discriminate].
  destruct (dec =? "h")%string.
  { destruct (hit_me p deck) as [[p1 deck1]|]; [cbn [bind] in *|discriminate].
    apply IH; [exact E|lia]. }
  destruct (dec =? "s")%string; [apply IH; [exact E|lia]|].
  destruct (dec =? "d")%string; [|apply IH; [exact E|lia]].
  destruct (hit_me p deck) as [[p1 deck1]|]; [cbn [bind] in *|discriminate].
  apply IH; [exact E|lia].
Qed.

Lemma dealer_loop_fuel fuel : forall p dealer deck r fuel',
  dealer_loop fuel p dealer deck = Ok r -> (fuel <= fuel')%nat ->
  dealer_loop fuel' p dealer deck = Ok r.
Proof.
  induction fuel as [|fuel IH]; intros p dealer deck r fuel' E Hle;
    cbn [dealer_loop] in E; destruct (Dealer.is_done dealer) eqn:Hd;
    try discriminate;
    try (destruct fuel'; cbn [dealer_loop]; rewrite Hd; exact E).
  destruct fuel' as [|fuel']; [lia|]. cbn [dealer_loop]. rewrite Hd.
  destruct (dealer_get_decision dealer =? "h")%string.
  { destruct (dealer_hit_me dealer deck p) as [[[d1 deck1] p1]|];
      [cbn [bind] in *|discriminate].
    apply IH; [exact E|lia]. }
  destruct (dealer_get_decision dealer =? "s")%string; apply IH; solve [exact E|lia].
Qed.

Lemma round_fuel fuel fuel' p dealer deck dummy r :
  round fuel p dealer deck dummy = Ok r -> (fuel <= fuel')%nat ->
  round fuel' p dealer deck dummy = Ok r.
Proof.
  unfold round, round_play, dealer_turn. intros E Hle.
  destruct (ace_split_draw p deck dummy) as [[p1 deck1]|]; [cbn [bind] in *|discriminate].
  destruct (player_loop fuel p1 dealer deck1) as [[p2 deck2]|] eqn:Ep;
    [cbn [bind] in E|discriminate].
  rewrite (player_loop_fuel _ _ _ _ _ _ Ep Hle). cbn [bind].
  destruct (dealer_turn_entered p2); [|exact E].
  destruct (dealer_loop fuel p2 dealer deck2) as [[[p3 d3] deck3]|] eqn:Ed;
    [cbn [bind] in E|discriminate].
  rewrite (dealer_loop_fuel _ _ _ _ _ _ Ed Hle). exact E.
Qed.

Lemma round_resets_hands fuel p dealer deck dummy p' dealer' deck' :
  round fuel p dealer deck dummy = Ok (p', dealer', deck') ->
  Dealer.hand dealer' = Hand.new /\ Dealer.is_done dealer' = false /\
  BasicPlayer.hand p' = Hand.new.
Proof.
  unfold round. intros E. bind_ok E. destruct r as [[p1 d1] deck1].
  destruct (settle p1 d1) as [p2 d2]. cbn in E. inversion E; subst. repeat split.
Qed.

Lemma hit_me_count p deck p' deck' :
  hit_me p deck = Ok (p', deck') ->
  if BasicPlayer.card_counting p
  then exists card rest,
         py_pop (Deck.cards (if Deck.is_empty deck
                             then shuffle deck (Deck.number_of_decks deck) else deck))
         = Ok (card, rest) /\
         BasicPlayer.count p' =
           (if Deck.is_empty deck then 0 else BasicPlayer.count p) + count_value card
  else BasicPlayer.count p' = BasicPlayer.count p.
Proof.
  unfold hit_me. intros E.
  destruct (BasicPlayer.card_counting p) eqn:Hc; destruct (Deck.is_empty deck);
    (match type of E with
     | bind (py_pop ?l) _ = _ => destruct (py_pop l) as [[card rest]|] eqn:Ep
     end; [|discriminate]; cbn [bind] in E;
     cbn [BasicPlayer.card_counting BasicPlayer.set_count] in E; rewrite ?Hc in E;
     (destruct (Hand.value _ >? 21); [|destruct (_ && _)]); inversion E; subst p' deck';
     try (exists card, rest; split; [reflexivity|]); reflexivity).
Qed.

(** ** The claims *)

(** C3, as the code has it: the dealer decision loop is entered exactly when
    the player's final value is below 21.  From 21 on, a bust and a 21
    alike, the dealer's turn is skipped and player, dealer and shoe go to
    settlement unchanged; below 21 the dealer's turn is the dealer decision
    loop. *)
Theorem dealer_turn_guard fuel (player : Player) dealer deck :
  (dealer_turn_entered player = true <-> Hand.value (BasicPlayer.hand player) < 21) /\
  (21 <= Hand.value (BasicPlayer.hand player) ->
   dealer_turn fuel player dealer deck = Ok (player, dealer, deck)) /\
  (Hand.value (BasicPlayer.hand player) < 21 ->
   dealer_turn fuel player dealer deck = dealer_loop fuel player dealer deck).
Proof.
  unfold dealer_turn, dealer_turn_entered.
  destruct (Z.ltb_spec (Hand.value (BasicPlayer.hand player)) 21); repeat split;
    intros; try reflexivity; try lia; try discriminate.
Qed.

(** C4: settlement takes the first branch that applies, in this order: the
    player busted (a loss, a bust recorded, the bet subtracted), also when
    the dealer busted too; else the dealer busted (a win); else the player
    holds two cards worth 21 (a win, 1.5 times the bet added to the
    earnings); else the higher value wins and equal values draw. *)
Theorem settle_precedence (player : Player) dealer :
  let pv := Hand.value (BasicPlayer.hand player) in
  let dv := Hand.value (Dealer.hand dealer) in
  let n := py_len (Hand.cards (BasicPlayer.hand player)) in
  (21 < pv ->
     fst (settle player dealer) = goes_bust player /\
     BasicPlayer.losses (goes_bust player) = BasicPlayer.losses player + 1 /\
     BasicPlayer.busts (goes_bust player) = BasicPlayer.busts player + 1 /\
     BasicPlayer.wins (goes_bust player) = BasicPlayer.wins player /\
     BasicPlayer.draws (goes_bust player) = BasicPlayer.draws player /\
     BasicPlayer.total_earnings (goes_bust player) =
       sub (BasicPlayer.total_earnings player) (BasicPlayer.current_bet player)) /\
  (pv <= 21 -> 21 < dv ->
     fst (settle player dealer) = round_outcome player true false false) /\
  (pv = 21 -> n = 2 -> dv <= 21 ->
     fst (settle player dealer) = gets_blackjack player /\
     BasicPlayer.wins (gets_blackjack player) = BasicPlayer.wins player + 1 /\
     BasicPlayer.total_earnings (gets_blackjack player) =
       add (BasicPlayer.total_earnings player)
           (mul (BasicPlayer.current_bet player) lit_1_5)) /\
  (pv <= 21 -> dv <= 21 -> ~ (pv = 21 /\ n = 2) ->
     (dv < pv -> fst (settle player dealer) = round_outcome player true false false) /\
     (pv < dv -> fst (settle player dealer) = round_outcome player false false true) /\
     (pv = dv -> fst (settle player dealer) = round_outcome player false true false)).
Proof.
  intros pv dv n. unfold settle. fold pv dv n.
  destruct (Z.gtb_spec pv 21) as [Hp|Hp];
    [|destruct (Z.gtb_spec dv 21) as [Hd|Hd];
      [|destruct (Z.eqb_spec pv 21) as [H21|H21];
        [destruct (Z.eqb_spec n 2) as [Hn|Hn]|];
        cbn [andb];
        (destruct (Z.gtb_spec pv dv) as [Hg|Hg];
         [|destruct (Z.ltb_spec pv dv) as [Hl|Hl]])]];
    cbn [fst]; repeat split; intros; try reflexivity; try lia;
    try (exfalso; intuition lia).
Qed.

(** C5: [round_outcome] with one of win, draw, loss selected counts the
    round and the matching outcome; a win adds the current bet to the
    earnings, a loss subtracts it, a draw leaves them; in each case the
    current bet ends at 0 and [is_done] at false, and nothing else changes.
    Every branch of the settlement goes through it once: whatever the
    outcome, the round count is up by one, the bet is 0 and [is_done] is
    false. *)
Theorem round_outcome_effect (p : Player) :
  round_outcome p true false false =
    BasicPlayer.mk (BasicPlayer.hand p) (BasicPlayer.name p) false (of_int 0)
      (BasicPlayer.total_bets p)
      (add (BasicPlayer.total_earnings p) (BasicPlayer.current_bet p))
      (BasicPlayer.rounds p + 1) (BasicPlayer.wins p + 1) (BasicPlayer.draws p)
      (BasicPlayer.losses p) (BasicPlayer.busts p) (BasicPlayer.stands p)
      (BasicPlayer.card_counting p) (BasicPlayer.count p) /\
  round_outcome p false true false =
    BasicPlayer.mk (BasicPlayer.hand p) (BasicPlayer.name p) false (of_int 0)
      (BasicPlayer.total_bets p) (BasicPlayer.total_earnings p)
      (BasicPlayer.rounds p + 1) (BasicPlayer.wins p) (BasicPlayer.draws p + 1)
      (BasicPlayer.losses p) (BasicPlayer.busts p) (BasicPlayer.stands p)
      (BasicPlayer.card_counting p) (BasicPlayer.count p) /\
  round_outcome p false false true =
    BasicPlayer.mk (BasicPlayer.hand p) (BasicPlayer.name p) false (of_int 0)
      (BasicPlayer.total_bets p)
      (sub (BasicPlayer.total_earnings p) (BasicPlayer.current_bet p))
      (BasicPlayer.rounds p + 1) (BasicPlayer.wins p) (BasicPlayer.draws p)
      (BasicPlayer.losses p + 1) (BasicPlayer.busts p) (BasicPlayer.stands p)
      (BasicPlayer.card_counting p) (BasicPlayer.count p) /\
  forall dealer,
    BasicPlayer.rounds (fst (settle p dealer)) = BasicPlayer.rounds p + 1 /\
    BasicPlayer.current_bet (fst (settle p dealer)) = of_int 0 /\
    BasicPlayer.is_done (fst (settle p dealer)) = false.
Proof.
  repeat split; unfold settle;
    repeat match goal with
           | |- context [if ?b then _ else _] => destruct b
           end; reflexivity.
Qed.


(** C9: a round played without a split that runs to its end counts one more
    round and one more of exactly one of win, draw and loss; so
    [rounds = wins + draws + losses], true before the round, is true after
    it. *)
Theorem init_round_counters fuel (player : Player) dealer deck p1 d1 deck1 p' dealer' deck' :
  counters_ok player ->
  deal_and_split player dealer deck = Ok (p1, None, d1, deck1) ->
  init_round fuel player dealer deck = Ok (p', dealer', deck') ->
  one_outcome player p' /\ counters_ok p'.
Proof.
  intros Hok Hd E. unfold init_round in E. rewrite Hd in E. cbn [bind] in E.
  apply deal_and_split_no_split_scores in Hd. apply round_one_outcome in E.
  assert (Ho : one_outcome player p')
    by (unfold one_outcome, same_scores in *; intuition lia).
  split; [exact Ho|]. unfold one_outcome, counters_ok in *. intuition lia.
Qed.

(** C10: [doubles] doubles the current bet, adds the bet as it was to
    [total_bets], sets [is_done], and changes nothing else, the stand and
    bust counts included.  [stand] is the action that counts a stand; a
    draw and the settlement calls leave the stand count alone.  A player
    turn that meets the decision "d" draws once, doubles and is over, with
    the stand and bust counts as they were.  The settlement that follows
    never counts a stand; it leaves the bust count when the hand ended at 21
    or below and counts one bust when the hand ended above 21, so a doubled
    hand that drew past 21 is counted in the busts. *)
Theorem doubles_frame (p : Player) :
  doubles p =
    BasicPlayer.mk (BasicPlayer.hand p) (BasicPlayer.name p) true
      (mul (BasicPlayer.current_bet p) (of_int 2))
      (add (BasicPlayer.total_bets p) (BasicPlayer.current_bet p))
      (BasicPlayer.total_earnings p)
      (BasicPlayer.rounds p) (BasicPlayer.wins p) (BasicPlayer.draws p)
      (BasicPlayer.losses p) (BasicPlayer.busts p) (BasicPlayer.stands p)
      (BasicPlayer.card_counting p) (BasicPlayer.count p) /\
  BasicPlayer.stands (stand p) = BasicPlayer.stands p + 1 /\
  BasicPlayer.busts (stand p) = BasicPlayer.busts p /\
  (forall win draw loss,
     BasicPlayer.stands (round_outcome p win draw loss) = BasicPlayer.stands p) /\
  (forall dealer,
     BasicPlayer.stands (fst (settle p dealer)) = BasicPlayer.stands p /\
     BasicPlayer.busts (fst (settle p dealer)) =
     BasicPlayer.busts p + (if 21 <? Hand.value (BasicPlayer.hand p) then 1 else 0)) /\
  (forall deck p' deck',
     hit_me p deck = Ok (p', deck') ->
     BasicPlayer.stands p' = BasicPlayer.stands p /\
     BasicPlayer.busts p' = BasicPlayer.busts p) /\
  (forall fuel dealer deck p' deck',
     BasicPlayer.is_done p = false ->
     get_other_decision p dealer = Ok "d"%string ->
     hit_me p deck = Ok (p', deck') ->
     player_loop (S fuel) p dealer deck = Ok (doubles p', deck') /\
     BasicPlayer.stands (doubles p') = BasicPlayer.stands p /\
     BasicPlayer.busts (doubles p') = BasicPlayer.busts p /\
     forall dealer',
       BasicPlayer.stands (fst (settle (doubles p') dealer')) = BasicPlayer.stands p /\
       BasicPlayer.busts (fst (settle (doubles p') dealer')) =
       BasicPlayer.busts p + (if 21 <? Hand.value (BasicPlayer.hand p') then 1 else 0)).
Proof.
  split; [reflexivity|]. split; [reflexivity|]. split; [reflexivity|].
  split; [intros [] [] []; reflexivity|].
  assert (Hsettle : forall (q : Player) dealer,
            BasicPlayer.stands (fst (settle q dealer)) = BasicPlayer.stands q /\
            BasicPlayer.busts (fst (settle q dealer)) =
            BasicPlayer.busts q + (if 21 <? Hand.value (BasicPlayer.hand q) then 1 else 0)).
  { intros q dealer. unfold settle. rewrite (Z.gtb_ltb (Hand.value (BasicPlayer.hand q)) 21).
    destruct (21 <? Hand.value (BasicPlayer.hand q)).
    - split; reflexivity.
    - repeat match goal with
             | |- context [if ?b then _ else _] => destruct b
             end; split; cbn; lia. }
  split; [exact (Hsettle p)|].
  split.
  { intros deck p' deck' E. apply hit_me_frame in E.
    destruct E as ((_ & _ & _ & _ & Hb & Hs) & _). split; assumption. }
  intros fuel dealer deck p' deck' Hnd Hdec E.
  split.
  - cbn [player_loop]. rewrite Hnd, Hdec. cbn [bind]. rewrite E. cbn [bind].
    destruct fuel; reflexivity.
  - apply hit_me_frame in E. destruct E as ((_ & _ & _ & _ & Hb & Hs) & _).
    split; [assumption|]. split; [assumption|].
    intros dealer'. destruct (Hsettle (doubles p') dealer') as [H1 H2].
    rewrite H1, H2. cbn. split; [exact Hs|]. rewrite Hb. reflexivity.
Qed.

(** ** Further properties of the engine *)

(** *** Lists *)

Lemma py_pop_snoc {A : Type} (l : list A) x : py_pop (l ++ [x]) = Ok (x, l).
Proof.
  induction l as [|y l IH]; [reflexivity|].
  cbn [app py_pop]. destruct (l ++ [x]) eqn:E.
  - destruct l; discriminate.
  - rewrite IH. reflexivity.
Qed.

Lemma py_pop_ok {A : Type} (l : list A) x rest :
  py_pop l = Ok (x, rest) <-> l = rest ++ [x].
Proof.
  split.
  - intros E. destruct l as [|y l _] using rev_ind; [discriminate|].
    rewrite py_pop_snoc in E. inversion E; subst. reflexivity.
  - intros ->. apply py_pop_snoc.
Qed.

Lemma py_pop_raise {A : Type} (l : list A) e :
  py_pop l = Raise e <-> l = [] /\ e = IndexError.
Proof.
  split.
  - intros E. destruct l as [|y l] using rev_ind.
    + cbn in E. inversion E. split; reflexivity.
    + rewrite py_pop_snoc in E. discriminate.
  - intros [-> ->]. reflexivity.
Qed.

(** *** A draw *)

Lemma hit_me_inv p deck p' deck' :
  hit_me p deck = Ok (p', deck') ->
  exists card rest,
    Deck.cards (shoe_drawn_from deck) = rest ++ [card] /\
    BasicPlayer.hand p' = drawn_into (BasicPlayer.hand p) card /\
    deck' = Deck.mk rest (Deck.number_of_decks (shoe_drawn_from deck))
                    (Deck.cards_left (shoe_drawn_from deck) - 1)
                    (Deck.shuffles (shoe_drawn_from deck)) /\
    BasicPlayer.is_done p' =
      BasicPlayer.is_done p
      || (Hand.value (BasicPlayer.hand p') >? 21)
      || ((py_len (Hand.cards (BasicPlayer.hand p')) =? 2)
          && (Hand.value (BasicPlayer.hand p') =? 21)).
Proof.
  unfold hit_me, shoe_drawn_from. intros E.
  destruct (Deck.is_empty deck); [destruct (BasicPlayer.card_counting p) eqn:Hc|];
    (match type of E with
     | bind (py_pop ?l) _ = _ => destruct (py_pop l) as [[card rest]|] eqn:Ep
     end; [|discriminate]; cbn [bind] in E; apply py_pop_ok in Ep;
     exists card, rest; split; [exact Ep|];
     fold (drawn_into (BasicPlayer.hand p) card) in E;
     cbn [BasicPlayer.hand BasicPlayer.set_count BasicPlayer.card_counting] in E;
     rewrite ?Hc in E;
     fold (drawn_into (BasicPlayer.hand p) card) in E;
     destruct (Hand.value (drawn_into (BasicPlayer.hand p) card) >? 21) eqn:Hv;
     [|destruct ((py_len (Hand.cards (drawn_into (BasicPlayer.hand p) card)) =? 2)
                 && (Hand.value (drawn_into (BasicPlayer.hand p) card) =? 21)) eqn:Hb];
     inversion E; subst p' deck';
     repeat match goal with
            | |- context [if ?b then _ else _] => destruct b
            end;
     cbn [BasicPlayer.hand BasicPlayer.is_done BasicPlayer.set_is_done
          BasicPlayer.set_hand BasicPlayer.set_count];
     rewrite ?Hv, ?Hb, ?orb_true_r, ?orb_false_r; repeat split; reflexivity).
Qed.

Lemma hit_me_raise p deck e :
  hit_me p deck = Raise e ->
  Deck.cards (shoe_drawn_from deck) = [] /\ e = IndexError.
Proof.
  unfold hit_me, shoe_drawn_from. intros E.
  destruct (Deck.is_empty deck); [destruct (BasicPlayer.card_counting p)|];
    (match type of E with
     | bind (py_pop ?l) _ = _ => destruct (py_pop l) as [[card rest]|e'] eqn:Ep
     end;
     [cbn [bind] in E;
      repeat match type of E with
             | context [if ?b then _ else _] => destruct b
             end; discriminate
     |cbn [bind] in E; inversion E; subst e'; apply py_pop_raise in Ep; exact Ep]).
Qed.

Lemma drawn_into_facts h card :
  0 <= Hand.aces h ->
  0 <= Hand.aces (drawn_into h card) /\
  (Hand.aces (drawn_into h card) = 0 \/ Hand.value (drawn_into h card) <= 21) /\
  hard_total (drawn_into h card)
  = hard_total h + (if is_ace card then 1 else Card.value card).
Proof.
  intros Ha. unfold drawn_into, soften_aces, hard_total. rewrite soften_adjust.
  change (Card.eqb card ace_instance) with (is_ace card).
  set (e := if is_ace card then 1 else 0).
  assert (He : 0 <= e <= 1) by (unfold e; destruct (is_ace card); lia).
  set (h1 := if is_ace card then _ else _).
  assert (E1 : Hand.value h1 = Hand.value h + Card.value card)
    by (unfold h1; destruct (is_ace card); reflexivity).
  assert (E2 : Hand.aces h1 = Hand.aces h + e)
    by (unfold h1, e; destruct (is_ace card); cbn; lia).
  cbn [Hand.cards Hand.value Hand.aces]. rewrite E1, E2.
  destruct (adjust_steps (Z.to_nat (Hand.aces h + e)) (Hand.value h + Card.value card)
              (Hand.aces h + e)) as (j & Hj & Hf & Hs & Hx & Hl); [lia|].
  rewrite Hf, Hs in *.
  assert (Hc : is_ace card = true -> Card.value card = 11).
  { unfold is_ace, Card.value. destruct (Card.rank card); cbn; congruence. }
  split; [lia|]. split; [lia|].
  unfold e in *. destruct (is_ace card); [rewrite Hc by reflexivity|]; lia.
Qed.

(** X2: the ace adjustment of [hit_me] leaves no soft bust: on a hand whose
    ace count was not negative, the draw leaves either no ace counted as 11
    or a value of at most 21, and the ace count stays non-negative. *)
Theorem hit_me_no_soft_bust p deck p' deck' :
  0 <= Hand.aces (BasicPlayer.hand p) ->
  hit_me p deck = Ok (p', deck') ->
  0 <= Hand.aces (BasicPlayer.hand p') /\
  (0 < Hand.aces (BasicPlayer.hand p') -> Hand.value (BasicPlayer.hand p') <= 21).
Proof.
  intros Ha E. destruct (hit_me_inv _ _ _ _ E) as (card & rest & _ & -> & _).
  destruct (drawn_into_facts (BasicPlayer.hand p) card Ha) as (H0 & Hx & _).
  split; [exact H0|]. intros Hpos. destruct Hx as [Hx|Hx]; lia.
Qed.

(** X3: a draw moves exactly one card: the last card of the shoe drawn from
    (the reshuffled one when [cards_left] was 0) leaves it and is appended
    to the hand; [cards_left] goes down by one, and a shoe whose [cards_left]
    was its number of cards stays so. *)
Theorem hit_me_moves_one_card p deck p' deck' :
  hit_me p deck = Ok (p', deck') ->
  (exists card,
     Deck.cards (shoe_drawn_from deck) = Deck.cards deck' ++ [card] /\
     Hand.cards (BasicPlayer.hand p') = Hand.cards (BasicPlayer.hand p) ++ [card]) /\
  Deck.cards_left deck' = Deck.cards_left (shoe_drawn_from deck) - 1 /\
  Deck.shuffles deck' =
    (if Deck.is_empty deck then S (Deck.shuffles deck) else Deck.shuffles deck) /\
  (deck_ok deck -> deck_ok deck').
Proof.
  intros E. destruct (hit_me_inv _ _ _ _ E) as (card & rest & Hc & Hh & -> & _).
  split; [exists card; split; [exact Hc|rewrite Hh; apply drawn_into_cards]|].
  split; [reflexivity|]. split.
  - unfold shoe_drawn_from. destruct (Deck.is_empty deck); reflexivity.
  - intros Hok. unfold deck_ok in *. cbn [Deck.cards_left Deck.cards].
    assert (Hs : Deck.cards_left (shoe_drawn_from deck)
                 = py_len (Deck.cards (shoe_drawn_from deck))).
    { unfold shoe_drawn_from. destruct (Deck.is_empty deck); [reflexivity|exact Hok]. }
    rewrite Hs, Hc. unfold py_len. rewrite length_app. cbn. lia.
Qed.

(** X4: [hit_me] fails only by popping from an empty list: it raises
    exactly when the shoe drawn from has no card, and the exception is
    [IndexError].  On a shoe whose [cards_left] is its number of cards and is
    not 0 it does not fail. *)
Theorem hit_me_fails_on_empty_shoe p deck :
  (forall e, hit_me p deck = Raise e <->
             Deck.cards (shoe_drawn_from deck) = [] /\ e = IndexError) /\
  (deck_ok deck -> Deck.cards_left deck <> 0 ->
   exists p' deck', hit_me p deck = Ok (p', deck')).
Proof.
  assert (Hr : forall e, hit_me p deck = Raise e <->
                         Deck.cards (shoe_drawn_from deck) = [] /\ e = IndexError).
  { intros e. split; [apply hit_me_raise|].
    intros [Hc ->]. destruct (hit_me p deck) as [[p' deck']|e] eqn:E.
    - destruct (hit_me_inv _ _ _ _ E) as (card & rest & Hc' & _).
      rewrite Hc in Hc'. destruct rest; discriminate.
    - apply hit_me_raise in E. destruct E as [_ ->]. reflexivity. }
  split; [exact Hr|]. intros Hok Hne.
  destruct (hit_me p deck) as [[p' deck']|e] eqn:E; [eexists _, _; reflexivity|].
  exfalso. apply hit_me_raise in E. destruct E as [Hc _].
  unfold shoe_drawn_from, Deck.is_empty in Hc.
  destruct (Z.eqb_spec (Deck.cards_left deck) 0) as [H0|H0]; [contradiction|].
  unfold deck_ok in Hok. rewrite Hc in Hok. cbn in Hok. contradiction.
Qed.

(** X6: a draw ends the turn exactly on a bust or on a two-card 21, and
    never reopens a turn that was over: [is_done] afterwards is [is_done]
    before, or a value above 21, or two cards worth 21.  A 21 on three cards
    or more does not end the turn. *)
Theorem hit_me_is_done p deck p' deck' :
  hit_me p deck = Ok (p', deck') ->
  (BasicPlayer.is_done p' = true <->
   BasicPlayer.is_done p = true \/
   21 < Hand.value (BasicPlayer.hand p') \/
   (py_len (Hand.cards (BasicPlayer.hand p')) = 2 /\
    Hand.value (BasicPlayer.hand p') = 21)).
Proof.
  intros E. destruct (hit_me_inv _ _ _ _ E) as (card & rest & _ & _ & _ & ->).
  rewrite !orb_true_iff, andb_true_iff, Z.gtb_lt, !Z.eqb_eq. tauto.
Qed.

(** *** The deal *)

Lemma rank_eqb_eq r1 r2 : Card.rank_eqb r1 r2 = true <-> r1 = r2.
Proof. destruct r1, r2; cbn; split; intros E; congruence. Qed.

Lemma hit_me_keeps_bets p deck p' deck' :
  hit_me p deck = Ok (p', deck') ->
  BasicPlayer.current_bet p' = BasicPlayer.current_bet p /\
  BasicPlayer.total_bets p' = BasicPlayer.total_bets p.
Proof.
  unfold hit_me. intros E.
  destruct (Deck.is_empty deck); [destruct (BasicPlayer.card_counting p) eqn:Hc|];
    (match type of E with
     | bind (py_pop ?l) _ = _ => destruct (py_pop l) as [[card rest]|] eqn:Ep
     end; [|discriminate]; cbn [bind] in E;
     repeat match type of E with
            | context [if ?b then _ else _] => destruct b
            end; inversion E; subst p' deck'; split; reflexivity).
Qed.

(** X7: [start_round] on an empty hand, the turn open, deals two cards: the
    hand holds exactly two cards, its value is the one the rule derives, it
    lies between 4 and 21, and the turn is over exactly when it is 21; the
    bet is the current bet and has been added to [total_bets]. *)
Theorem start_round_deals_two p deck bet p' deck' :
  BasicPlayer.hand p = Hand.new ->
  BasicPlayer.is_done p = false ->
  start_round p deck bet = Ok (p', deck') ->
  (exists c1 c2, Hand.cards (BasicPlayer.hand p') = [c1; c2]) /\
  hand_consistent (BasicPlayer.hand p') /\
  4 <= Hand.value (BasicPlayer.hand p') <= 21 /\
  (BasicPlayer.is_done p' = true <-> Hand.value (BasicPlayer.hand p') = 21) /\
  BasicPlayer.current_bet p' = bet /\
  BasicPlayer.total_bets p' = add (BasicPlayer.total_bets p) bet.
Proof.
  intros Hh Hd E. unfold start_round in E. bind_ok E. destruct r as [p1 deck1].
  pose proof (hit_me_keeps_bets _ _ _ _ E0) as (Hb1 & Ht1).
  pose proof (hit_me_keeps_bets _ _ _ _ E) as (Hb2 & Ht2).
  destruct (hit_me_inv _ _ _ _ E0) as (c1 & r1 & _ & Hh1 & _ & Hd1).
  destruct (hit_me_inv _ _ _ _ E) as (c2 & r2 & _ & Hh2 & _ & Hd2).
  cbn [BasicPlayer.hand BasicPlayer.is_done BasicPlayer.set_total_bets
       BasicPlayer.set_current_bet BasicPlayer.current_bet BasicPlayer.total_bets]
    in Hh1, Hd1, Hb1, Ht1.
  rewrite Hh in Hh1. rewrite Hd in Hd1.
  split; [exists c1, c2; rewrite Hh2, drawn_into_cards, Hh1, drawn_into_cards; reflexivity|].
  split.
  { rewrite Hh2, Hh1. apply drawn_into_consistent, drawn_into_consistent. reflexivity. }
  split; [|split; [|split; congruence]].
  - rewrite Hh2, Hh1.
    destruct c1 as [[] s1], c2 as [[] s2]; vm_compute; split; intros; discriminate.
  - rewrite Hd2, Hd1. rewrite Hh2, Hh1.
    destruct c1 as [[] s1], c2 as [[] s2]; vm_compute; split; intros; congruence.
Qed.

(** X8: [get_split_decision] reads [cards[0]] and [cards[1]] before
    anything else, so a hand of fewer than two cards raises [IndexError];
    a hand of more than two cards, or of two cards of different ranks, is
    answered "n" without the table or the dealer being consulted; a pair is
    answered by the pair table at the pair's rank and the up-card's rank. *)
Theorem get_split_decision_cases (p : Player) dealer :
  (py_len (Hand.cards (BasicPlayer.hand p)) < 2 ->
   get_split_decision p dealer = Raise IndexError) /\
  (forall c0 c1 rest,
     Hand.cards (BasicPlayer.hand p) = c0 :: c1 :: rest ->
     rest <> [] \/ Card.rank c0 <> Card.rank c1 ->
     get_split_decision p dealer = Ok "n"%string) /\
  (forall c0 c1 up,
     Hand.cards (BasicPlayer.hand p) = [c0; c1] ->
     Card.rank c0 = Card.rank c1 ->
     Dealer.up_card dealer = Some up ->
     get_split_decision p dealer = split_table (Card.rank c0) (Card.rank up)).
Proof.
  unfold get_split_decision, _search_split_table, up_card_rank.
  split; [|split].
  - unfold py_len. intros Hl.
    destruct (Hand.cards (BasicPlayer.hand p)) as [|c0 [|c1 rest]]; cbn in *;
      try reflexivity; lia.
  - intros c0 c1 rest -> Hn. cbn [py_index nth_error bind].
    destruct rest as [|c2 rest].
    + destruct Hn as [Hn|Hn]; [congruence|].
      unfold Card.eqb. destruct (Card.rank_eqb (Card.rank c0) (Card.rank c1)) eqn:Er.
      * apply rank_eqb_eq in Er. contradiction.
      * rewrite andb_false_r. reflexivity.
    + replace (py_len (c0 :: c1 :: c2 :: rest) =? 2) with false; [reflexivity|].
      symmetry. apply Z.eqb_neq. unfold py_len. cbn [List.length]. lia.
  - intros c0 c1 up -> Hr ->. cbn [py_index nth_error bind].
    unfold Card.eqb. rewrite (proj2 (rank_eqb_eq _ _) Hr). reflexivity.
Qed.

(** *** Settling *)

(** X9: the flags of [round_outcome] are tried in the order win, loss,
    draw: with [win] set the others are ignored, with [loss] set [draw] is
    ignored.  With no flag set the round is still counted, so that
    [rounds = wins + draws + losses] no longer holds afterwards. *)
Theorem round_outcome_flags (p : Player) :
  (forall draw loss, round_outcome p true draw loss = round_outcome p true false false) /\
  (forall draw, round_outcome p false draw true = round_outcome p false false true) /\
  BasicPlayer.rounds (round_outcome p false false false) = BasicPlayer.rounds p + 1 /\
  same_scores (BasicPlayer.set_rounds p (BasicPlayer.rounds p + 1))
              (round_outcome p false false false) /\
  (counters_ok p -> ~ counters_ok (round_outcome p false false false)).
Proof.
  split; [intros [] []; reflexivity|]. split; [intros []; reflexivity|].
  split; [reflexivity|]. split; [repeat split|].
  unfold counters_ok. cbn. intros H1 H2. lia.
Qed.

(** *** The player's turn *)

(** X10: the decision loops stop only on [is_done]: a player turn that
    returns leaves the player done, and a dealer turn that returns leaves the
    dealer done. *)
Theorem loops_end_done fuel (p : Player) dealer deck :
  (forall p' deck',
     player_loop fuel p dealer deck = Ok (p', deck') -> BasicPlayer.is_done p' = true) /\
  (forall p' dealer' deck',
     dealer_loop fuel p dealer deck = Ok (p', dealer', deck') ->
     Dealer.is_done dealer' = true).
Proof.
  split.
  - revert p deck. induction fuel as [|fuel IH]; intros p deck p' deck' E;
      cbn [player_loop] in E; destruct (BasicPlayer.is_done p) eqn:Hd;
      try (inversion E; subst; exact Hd); try discriminate.
    bind_ok E.
    destruct (r =? "h")%string; [bind_ok E; destruct r0; eauto|].
    destruct (r =? "s")%string; [eauto|].
    destruct (r =? "d")%string; [bind_ok E; destruct r0; eauto|eauto].
  - revert p dealer deck. induction fuel as [|fuel IH]; intros p dealer deck p' dealer' deck' E;
      cbn [dealer_loop] in E; destruct (Dealer.is_done dealer) eqn:Hd;
      try (inversion E; subst; exact Hd); try discriminate.
    destruct (dealer_get_decision dealer =? "h")%string;
      [bind_ok E; destruct r as [[? ?] ?]; eauto|].
    destruct (dealer_get_decision dealer =? "s")%string; eauto.
Qed.

(** X11: the player loop has no branch for an answer other than "h", "s"
    and "d": on such an answer nothing changes and the loop asks again, so
    the turn never ends, whatever the fuel. *)
Theorem player_loop_spins_on_unknown_answer (p : Player) dealer deck answer :
  BasicPlayer.is_done p = false ->
  get_other_decision p dealer = Ok answer ->
  answer <> "h"%string -> answer <> "s"%string -> answer <> "d"%string ->
  forall fuel, player_loop fuel p dealer deck = Raise OutOfFuel.
Proof.
  intros Hd Ha Hh Hs Hdd fuel. induction fuel as [|fuel IH]; cbn [player_loop];
    rewrite Hd; [reflexivity|].
  rewrite Ha. cbn [bind].
  apply String.eqb_neq in Hh, Hs, Hdd. rewrite Hh, Hs, Hdd. exact IH.
Qed.

Lemma player_loop_done fuel (p : Player) dealer deck :
  BasicPlayer.is_done p = true -> player_loop fuel p dealer deck = Ok (p, deck).
Proof. intros Hd. destruct fuel; cbn [player_loop]; rewrite Hd; reflexivity. Qed.

Lemma table_answer_known table v up (k : string -> result string) :
  answers_known table ->
  (forall a, a = "h"%string \/ a = "s"%string \/ a = "d"%string ->
             exists a', k a = Ok a' /\
                        (a' = "h"%string \/ a' = "s"%string \/ a' = "d"%string)) ->
  bind (table v up) k = Raise KeyError \/
  exists a, bind (table v up) k = Ok a /\
            (a = "h"%string \/ a = "s"%string \/ a = "d"%string).
Proof.
  intros Hk Hcont. destruct (Hk v up) as [-> | (a & -> & Ha)]; [left; reflexivity|].
  right. cbn [bind]. apply Hcont, Ha.
Qed.

Lemma get_other_decision_known (p : Player) dealer :
  answers_known hard_table -> answers_known soft_table ->
  get_other_decision p dealer = Raise KeyError \/
  get_other_decision p dealer = Raise AttributeError \/
  exists a, get_other_decision p dealer = Ok a /\
            (a = "h"%string \/ a = "s"%string \/ a = "d"%string).
Proof.
  intros Hh Hs. unfold get_other_decision, _search_soft_table, _search_hard_table,
    up_card_rank.
  assert (Hcont : forall a, a = "h"%string \/ a = "s"%string \/ a = "d"%string ->
            exists a',
              (if (a =? "d")%string && (py_len (Hand.cards (BasicPlayer.hand p)) >? 2)
               then Ok "h"%string else Ok a) = Ok a' /\
              (a' = "h"%string \/ a' = "s"%string \/ a' = "d"%string)).
  { intros a Ha. destruct (_ && _); eexists; (split; [reflexivity|]); auto. }
  destruct (Dealer.up_card dealer) as [up|];
    [|destruct (_ >? 0); right; left; reflexivity].
  cbn [bind].
  destruct (Hand.aces (BasicPlayer.hand p) >? 0).
  - destruct (table_answer_known soft_table (Hand.value (BasicPlayer.hand p)) (Card.rank up)
                _ Hs Hcont) as [E|E]; [left|right; right]; exact E.
  - destruct (table_answer_known hard_table (Hand.value (BasicPlayer.hand p)) (Card.rank up)
                _ Hh Hcont) as [E|E]; [left|right; right]; exact E.
Qed.

Lemma hit_me_climbs p deck p' deck' :
  0 <= Hand.aces (BasicPlayer.hand p) ->
  hit_me p deck = Ok (p', deck') ->
  0 <= Hand.aces (BasicPlayer.hand p') /\
  hard_total (BasicPlayer.hand p) + 1 <= hard_total (BasicPlayer.hand p') /\
  (BasicPlayer.is_done p' = false -> hard_total (BasicPlayer.hand p') <= 21).
Proof.
  intros Ha E. destruct (hit_me_inv _ _ _ _ E) as (card & rest & _ & Hh & _ & Hd).
  destruct (drawn_into_facts (BasicPlayer.hand p) card Ha) as (H0 & Hx & Ht).
  rewrite <- Hh in H0, Hx, Ht.
  pose proof (card_value_pos card) as Hc.
  split; [exact H0|]. split; [destruct (is_ace card); lia|].
  intros Hnd. rewrite Hnd in Hd. symmetry in Hd.
  apply orb_false_iff in Hd. destruct Hd as [Hd _].
  apply orb_false_iff in Hd. destruct Hd as [_ Hv].
  unfold hard_total. destruct (Z.gtb_spec (Hand.value (BasicPlayer.hand p')) 21); [discriminate|lia].
Qed.

Lemma player_loop_enough :
  answers_known hard_table -> answers_known soft_table ->
  forall fuel (p : Player) dealer deck,
    0 <= Hand.aces (BasicPlayer.hand p) ->
    (Z.to_nat (22 - hard_total (BasicPlayer.hand p)) < fuel)%nat ->
    player_loop fuel p dealer deck <> Raise OutOfFuel.
Proof.
  intros Hh Hs. induction fuel as [|fuel IH]; intros p dealer deck Ha Hf; [lia|].
  cbn [player_loop]. destruct (BasicPlayer.is_done p) eqn:Hd; [discriminate|].
  destruct (get_other_decision_known p dealer Hh Hs) as [-> | [-> | (a & -> & Hcase)]];
    try discriminate.
  cbn [bind].
  assert (Hhit : forall k : Player -> Player,
            (forall q, BasicPlayer.is_done (k q) = true) \/ (forall q, k q = q) ->
            bind (hit_me p deck) (fun r => match r with (p1, deck1) =>
                    player_loop fuel (k p1) dealer deck1 end) <> Raise OutOfFuel).
  { intros k Hk. destruct (hit_me p deck) as [[p1 deck1]|e] eqn:E; cbn [bind].
    - destruct Hk as [Hk|Hk]; [rewrite player_loop_done by apply Hk; discriminate|].
      rewrite Hk. destruct (hit_me_climbs _ _ _ _ Ha E) as (Ha1 & Hup & Hle).
      destruct (BasicPlayer.is_done p1) eqn:Hd1;
        [rewrite player_loop_done by exact Hd1; discriminate|].
      apply IH; [exact Ha1|]. specialize (Hle eq_refl). lia.
    - apply hit_me_raise in E. destruct E as [_ ->]. discriminate. }
  destruct Hcase as [-> | [-> | ->]]; cbn [String.eqb Ascii.eqb Bool.eqb andb].
  - apply (Hhit (fun q => q)). right. reflexivity.
  - rewrite player_loop_done by reflexivity. discriminate.
  - apply (Hhit doubles). left. reflexivity.
Qed.

(** X12: when the tables answer only "h", "s" or "d" (or raise
    [KeyError]), the player's turn is over within 23 iterations of the loop:
    on a hand whose ace count and whose total with every ace at 1 are not
    negative, the loop returns or raises a Python exception for any fuel from
    23 on. *)
Theorem player_loop_ends_within_23 (p : Player) dealer deck fuel :
  answers_known hard_table -> answers_known soft_table ->
  0 <= Hand.aces (BasicPlayer.hand p) ->
  0 <= hard_total (BasicPlayer.hand p) ->
  (23 <= fuel)%nat ->
  player_loop fuel p dealer deck <> Raise OutOfFuel.
Proof.
  intros Hh Hs Ha Ht Hf. apply player_loop_enough; try assumption. lia.
Qed.

(** *** The whole round *)

Lemma dealer_loop_up_card fuel : forall (p : Player) dealer deck p' dealer' deck',
  dealer_loop fuel p dealer deck = Ok (p', dealer', deck') ->
  Dealer.up_card dealer' = Dealer.up_card dealer.
Proof.
  induction fuel as [|fuel IH]; intros p dealer deck p' dealer' deck' E;
    cbn [dealer_loop] in E; destruct (Dealer.is_done dealer);
    try (inversion E; subst; reflexivity); try discriminate.
  destruct (dealer_get_decision dealer =? "h")%string.
  { bind_ok E. destruct r as [[d1 deck1] p1]. rewrite (IH _ _ _ _ _ _ E).
    apply (dealer_hit_me_frame _ _ _ _ _ _ E0). }
  destruct (dealer_get_decision dealer =? "s")%string;
    rewrite (IH _ _ _ _ _ _ E); reflexivity.
Qed.

(** X13: a round that returns leaves the table ready for the next one: both
    hands are empty, neither turn is marked done, the current bet is 0, and
    the dealer's up-card attribute is the one it was. *)
Theorem round_leaves_table_clear fuel (p : Player) dealer deck dummy p' dealer' deck' :
  round fuel p dealer deck dummy = Ok (p', dealer', deck') ->
  BasicPlayer.hand p' = Hand.new /\
  BasicPlayer.is_done p' = false /\
  BasicPlayer.current_bet p' = of_int 0 /\
  Dealer.hand dealer' = Hand.new /\
  Dealer.is_done dealer' = false /\
  Dealer.up_card dealer' = Dealer.up_card dealer.
Proof.
  unfold round, round_play, dealer_turn. intros E.
  bind_ok E. bind_ok E0. destruct r0 as [p1 deck1]. bind_ok E0. destruct r0 as [p2 deck2].
  destruct r as [[p3 d3] deck3].
  assert (Hup : Dealer.up_card d3 = Dealer.up_card dealer).
  { destruct (dealer_turn_entered p2).
    - eapply dealer_loop_up_card; eassumption.
    - inversion E0; reflexivity. }
  assert (Hs : BasicPlayer.is_done (fst (settle p3 d3)) = false /\
               BasicPlayer.current_bet (fst (settle p3 d3)) = of_int 0 /\
               snd (settle p3 d3) = d3).
  { unfold settle, dealer_goes_bust.
    repeat match goal with
           | |- context [if ?b then _ else _] => destruct b
           end; repeat split. }
  destruct (settle p3 d3) as [p4 d4]. cbn [fst snd] in Hs. destruct Hs as (H1 & H2 & ->).
  cbn in E. inversion E; subst. cbn. repeat split; assumption.
Qed.

(** *** Rounds and the session *)

(** X15: [add_totals] with no dummy changes nothing; with a dummy it
    returns the player with the dummy's total of bets, earnings, rounds, wins,
    draws, losses, busts and stands added to its own, each to its own
    attribute, and the hand, the name, [is_done], the current bet, the
    counting flag and the count as they were; two score sheets on which
    [rounds = wins + draws + losses] holds add up to one on which it holds. *)
Theorem add_totals_merges (p o : Player) :
  add_totals p None = p /\
  add_totals p (Some o) =
    BasicPlayer.mk (BasicPlayer.hand p) (BasicPlayer.name p) (BasicPlayer.is_done p)
      (BasicPlayer.current_bet p)
      (add (BasicPlayer.total_bets p) (BasicPlayer.total_bets o))
      (add (BasicPlayer.total_earnings p) (BasicPlayer.total_earnings o))
      (BasicPlayer.rounds p + BasicPlayer.rounds o)
      (BasicPlayer.wins p + BasicPlayer.wins o)
      (BasicPlayer.draws p + BasicPlayer.draws o)
      (BasicPlayer.losses p + BasicPlayer.losses o)
      (BasicPlayer.busts p + BasicPlayer.busts o)
      (BasicPlayer.stands p + BasicPlayer.stands o)
      (BasicPlayer.card_counting p) (BasicPlayer.count p) /\
  (counters_ok p -> counters_ok o -> counters_ok (add_totals p (Some o))).
Proof.
  split; [reflexivity|]. split; [reflexivity|]. unfold counters_ok. cbn. lia.
Qed.

Lemma deal_and_split_scores player dealer deck p1 dm d1 deck1 :
  deal_and_split player dealer deck = Ok (p1, dm, d1, deck1) ->
  same_scores player p1 /\
  forall d, dm = Some d ->
    BasicPlayer.rounds d = 0 /\ BasicPlayer.wins d = 0 /\
    BasicPlayer.draws d = 0 /\ BasicPlayer.losses d = 0.
Proof.
  unfold deal_and_split. intros E.
  bind_ok E. destruct r as [p0 deck0].
  assert (H0 : same_scores player p0).
  { destruct (dealt_bet_ok _ _ _ _ E0) as [b Hb].
    eapply start_round_scores, Hb. }
  bind_ok E. destruct r as [[d2 deck2] p2].
  pose proof (dealer_start_round_scores _ _ _ _ _ _ E1) as H1.
  assert (H2 : same_scores player p2) by (eapply same_scores_trans; eassumption).
  bind_ok E. destruct (r =? "y")%string.
  - bind_ok E. destruct r0 as [card rest]. bind_ok E. destruct r0 as [p3 deck3].
    bind_ok E. destruct r0 as [dm3 deck4].
    apply hit_me_scores in E4. apply hit_me_scores in E5.
    unfold same_scores in *. cbn in E4, E5.
    destruct (negb _); inversion E; subst; cbn;
      (split; [intuition congruence|]); intros d Hd; inversion Hd; subst; cbn;
      intuition congruence.
  - inversion E; subst. split; [exact H2|]. intros d Hd. discriminate.
Qed.

Lemma init_round_tally fuel (player : Player) dealer deck p' dealer' deck' :
  init_round fuel player dealer deck = Ok (p', dealer', deck') ->
  exists p1 dm d1 deck1,
    deal_and_split player dealer deck = Ok (p1, dm, d1, deck1) /\
    BasicPlayer.rounds p' =
      BasicPlayer.rounds player + (match dm with Some _ => 2 | None => 1 end) /\
    BasicPlayer.wins player <= BasicPlayer.wins p' /\
    BasicPlayer.draws player <= BasicPlayer.draws p' /\
    BasicPlayer.losses player <= BasicPlayer.losses p' /\
    (counters_ok player -> counters_ok p').
Proof.
  unfold init_round. intros E. bind_ok E. destruct r as [[[p1 dm] d1] deck1].
  exists p1, dm, d1, deck1. split; [reflexivity|].
  destruct (deal_and_split_scores _ _ _ _ _ _ _ E0) as (Hs & Hz).
  destruct dm as [dummy|].
  - bind_ok E. destruct r as [[dummy2 d2] deck2].
    apply round_one_outcome in E1. apply round_one_outcome in E.
    destruct (Hz dummy eq_refl) as (Z1 & Z2 & Z3 & Z4).
    unfold one_outcome, same_scores, counters_ok in *. cbn in E. intuition lia.
  - apply round_one_outcome in E.
    unfold one_outcome, same_scores, counters_ok in *. intuition lia.
Qed.

(** X14: a call of [init_round] that returns counts one round when the hand
    was not split and two when it was, the dummy's being added to the
    player's; on either path [rounds = wins + draws + losses], true before,
    is true after. *)
Theorem init_round_counts_a_split_twice fuel (player : Player) dealer deck
    p1 dm d1 deck1 p' dealer' deck' :
  counters_ok player ->
  deal_and_split player dealer deck = Ok (p1, dm, d1, deck1) ->
  init_round fuel player dealer deck = Ok (p', dealer', deck') ->
  counters_ok p' /\
  BasicPlayer.rounds p' =
    BasicPlayer.rounds player + (match dm with Some _ => 2 | None => 1 end).
Proof.
  intros Hok Hd E.
  destruct (init_round_tally _ _ _ _ _ _ _ E) as (q1 & dm' & e1 & k1 & Hd' & Hr & _ & _ & _ & Hc).
  rewrite Hd in Hd'. inversion Hd'; subst. split; [apply Hc, Hok|exact Hr].
Qed.

(** X18: a session of [num_rounds] calls of [init_round] that returns has
    counted between [num_rounds] and twice [num_rounds] rounds more, keeps
    [rounds = wins + draws + losses], keeps the counters non-negative, and
    ends with both hands empty when at least one round was played. *)
Theorem play_rounds_tally fuel num_rounds : forall (player : Player) dealer deck p' dealer' deck',
  counters_ok player -> tallies_nonneg player ->
  play_rounds fuel num_rounds player dealer deck = Ok (p', dealer', deck') ->
  counters_ok p' /\ tallies_nonneg p' /\
  BasicPlayer.rounds player + Z.of_nat num_rounds <= BasicPlayer.rounds p'
    <= BasicPlayer.rounds player + 2 * Z.of_nat num_rounds /\
  ((0 < num_rounds)%nat ->
   BasicPlayer.hand p' = Hand.new /\ Dealer.hand dealer' = Hand.new).
Proof.
  induction num_rounds as [|n IH]; intros player dealer deck p' dealer' deck' Hok Hnn E;
    cbn [play_rounds] in E.
  - inversion E; subst. split; [assumption|]. split; [assumption|].
    split; [lia|]. intros Hpos. lia.
  - bind_ok E. destruct r as [[p1 d1] deck1].
    destruct (init_round_tally _ _ _ _ _ _ _ E0)
      as (q1 & dm & e1 & k1 & _ & Hr & Hw & Hdr & Hl & Hc).
    assert (Hnn1 : tallies_nonneg p1).
    { unfold tallies_nonneg in *. destruct dm; intuition lia. }
    destruct (IH _ _ _ _ _ _ (Hc Hok) Hnn1 E) as (Hok' & Hnn' & Hrange & Hclear).
    split; [exact Hok'|]. split; [exact Hnn'|]. split; [destruct dm; lia|].
    intros _. destruct n as [|n].
    + cbn [play_rounds] in E. inversion E; subst.
      unfold init_round in E0. bind_ok E0. destruct r as [[[q2 dm2] e2] k2].
      destruct dm2 as [dummy|].
      * bind_ok E0. destruct r as [[dummy2 d2] deck2].
        apply round_resets_hands in E0. intuition.
      * apply round_resets_hands in E0. intuition.
    + apply Hclear. lia.
Qed.

(** *** No round spins *)

Lemma dealer_hit_me_inv dealer deck (p : Player) dealer' deck' p' :
  dealer_hit_me dealer deck p = Ok (dealer', deck', p') ->
  exists card,
    Dealer.hand dealer' = drawn_into (Dealer.hand dealer) card /\
    Dealer.is_done dealer' =
      Dealer.is_done dealer
      || (Hand.value (Dealer.hand dealer') >? 21)
      || ((py_len (Hand.cards (Dealer.hand dealer')) =? 2)
          && (Hand.value (Dealer.hand dealer') =? 21)).
Proof.
  unfold dealer_hit_me. intros E.
  destruct (Deck.is_empty deck); [destruct (BasicPlayer.card_counting p) eqn:Hc|];
    (match type of E with
     | bind (py_pop ?l) _ = _ => destruct (py_pop l) as [[card rest]|] eqn:Ep
     end; [|discriminate]; cbn [bind] in E; exists card;
     fold (drawn_into (Dealer.hand dealer) card) in E;
     destruct (Hand.value (drawn_into (Dealer.hand dealer) card) >? 21) eqn:Hv;
     [|destruct ((py_len (Hand.cards (drawn_into (Dealer.hand dealer) card)) =? 2)
                 && (Hand.value (drawn_into (Dealer.hand dealer) card) =? 21)) eqn:Hb];
     inversion E; subst dealer' deck' p';
     cbn [Dealer.hand Dealer.is_done Dealer.set_is_done Dealer.set_hand];
     rewrite ?Hv, ?Hb, ?orb_true_r, ?orb_false_r; repeat split; reflexivity).
Qed.

Lemma dealer_hit_me_raise dealer deck (p : Player) e :
  dealer_hit_me dealer deck p = Raise e -> e = IndexError.
Proof.
  unfold dealer_hit_me. intros E.
  destruct (Deck.is_empty deck); [destruct (BasicPlayer.card_counting p)|];
    (match type of E with
     | bind (py_pop ?l) _ = _ => destruct (py_pop l) as [[card rest]|e'] eqn:Ep
     end;
     [cbn [bind] in E;
      repeat match type of E with
             | context [if ?b then _ else _] => destruct b
             end; discriminate
     |cbn [bind] in E; inversion E; subst e'; apply py_pop_raise in Ep; apply Ep]).
Qed.

Lemma drawn_into_sane h card : hand_sane h -> hand_sane (drawn_into h card).
Proof.
  intros [Ha Ht]. destruct (drawn_into_facts h card Ha) as (H0 & _ & Hh).
  pose proof (card_value_pos card). split; [exact H0|].
  rewrite Hh. destruct (is_ace card); lia.
Qed.

Lemma hit_me_sane p deck p' deck' :
  hand_sane (BasicPlayer.hand p) -> hit_me p deck = Ok (p', deck') ->
  hand_sane (BasicPlayer.hand p').
Proof.
  intros Hs E. destruct (hit_me_inv _ _ _ _ E) as (card & rest & _ & -> & _).
  apply drawn_into_sane, Hs.
Qed.

Lemma dealer_loop_done fuel (p : Player) dealer deck :
  Dealer.is_done dealer = true -> dealer_loop fuel p dealer deck = Ok (p, dealer, deck).
Proof. intros Hd. destruct fuel; cbn [dealer_loop]; rewrite Hd; reflexivity. Qed.

Lemma dealer_loop_enough : forall fuel (p : Player) dealer deck,
  0 <= Hand.aces (Dealer.hand dealer) ->
  (Z.to_nat (18 - hard_total (Dealer.hand dealer)) < fuel)%nat ->
  dealer_loop fuel p dealer deck <> Raise OutOfFuel.
Proof.
  induction fuel as [|fuel IH]; intros p dealer deck Ha Hf; [lia|].
  cbn [dealer_loop]. destruct (Dealer.is_done dealer) eqn:Hd; [discriminate|].
  unfold dealer_get_decision.
  destruct (Z.ltb_spec (Hand.value (Dealer.hand dealer)) 17) as [Hv|Hv];
    cbn [String.eqb Ascii.eqb Bool.eqb andb].
  - destruct (dealer_hit_me dealer deck p) as [[[d1 deck1] p1]|e] eqn:E; cbn [bind].
    + destruct (dealer_hit_me_inv _ _ _ _ _ _ E) as (card & Hh & Hd1).
      destruct (drawn_into_facts (Dealer.hand dealer) card Ha) as (H0 & _ & Ht).
      rewrite <- Hh in H0, Ht. pose proof (card_value_pos card) as Hc.
      destruct (Dealer.is_done d1) eqn:Hdone;
        [rewrite dealer_loop_done by exact Hdone; discriminate|].
      apply IH; [exact H0|]. unfold hard_total in *.
      destruct (is_ace card); lia.
    + apply dealer_hit_me_raise in E. subst e. discriminate.
  - rewrite dealer_loop_done by reflexivity. discriminate.
Qed.

Lemma round_enough fuel (p : Player) dealer deck dummy :
  answers_known hard_table -> answers_known soft_table ->
  hand_sane (BasicPlayer.hand p) -> hand_sane (Dealer.hand dealer) ->
  (23 <= fuel)%nat ->
  round fuel p dealer deck dummy <> Raise OutOfFuel.
Proof.
  intros Hh Hs Hp Hd Hf. unfold round, round_play, dealer_turn.
  assert (Ha : match ace_split_draw p deck dummy with
               | Ok (p1, _) => hand_sane (BasicPlayer.hand p1)
               | Raise e => e = IndexError
               end).
  { unfold ace_split_draw. destruct dummy; [|exact Hp].
    unfold py_index. destruct (nth_error _ 0) as [c0|]; [|reflexivity]. cbn [bind].
    destruct (Card.rank_eqb (Card.rank c0) Card.ace); [|exact Hp].
    match goal with |- match hit_me ?q ?d with _ => _ end =>
      destruct (hit_me q d) as [[p1 deck1]|e] eqn:E end.
    - eapply hit_me_sane; [|exact E]. split; cbn; unfold hard_total; cbn; lia.
    - apply hit_me_raise in E. apply E. }
  destruct (ace_split_draw p deck dummy) as [[p1 deck1]|e]; cbn [bind];
    [|subst e; discriminate].
  pose proof (player_loop_enough Hh Hs fuel p1 dealer deck1 (proj1 Ha)) as Hpl.
  destruct (player_loop fuel p1 dealer deck1) as [[p2 deck2]|e] eqn:E2; cbn [bind].
  - destruct (dealer_turn_entered p2).
    + pose proof (dealer_loop_enough fuel p2 dealer deck2 (proj1 Hd)) as Hdl.
      destruct (dealer_loop fuel p2 dealer deck2) as [[[p3 d3] deck3]|e] eqn:E3; cbn [bind].
      * destruct (settle p3 d3). cbn. discriminate.
      * intros Heq. apply Hdl; [destruct Hd; lia|]. inversion Heq; reflexivity.
    + cbn [bind]. destruct (settle p2 dealer). cbn. discriminate.
  - intros Heq. apply Hpl; [destruct Ha; lia|]. inversion Heq; reflexivity.
Qed.

Lemma ace_total_cons c cs :
  ace_total (c :: cs) = (if is_ace c then 1 else 0) + ace_total cs.
Proof.
  unfold ace_total, py_len. cbn [filter]. destruct (is_ace c); cbn [List.length]; lia.
Qed.

Lemma hard_sum_lower cs :
  0 <= face_total cs - 10 * ace_total cs /\
  forall c, In c cs -> is_ace c = false ->
            Card.value c <= face_total cs - 10 * ace_total cs.
Proof.
  induction cs as [|x cs [IH0 IH]].
  - split; [cbn; lia|]. intros c [].
  - rewrite ace_total_cons. cbn [face_total fold_right]. fold (face_total cs).
    pose proof (card_value_pos x) as Hx.
    assert (Hace : is_ace x = true -> Card.value x = 11).
    { unfold is_ace, Card.value. destruct (Card.rank x); cbn; congruence. }
    split.
    + destruct (is_ace x); [rewrite Hace by reflexivity|]; lia.
    + intros c [->|Hin] Hc.
      * rewrite Hc. lia.
      * specialize (IH c Hin Hc).
        destruct (is_ace x); [rewrite Hace by reflexivity|]; lia.
Qed.

Lemma consistent_hard h :
  hand_consistent h ->
  0 <= Hand.aces h /\
  hard_total h = face_total (Hand.cards h) - 10 * ace_total (Hand.cards h).
Proof.
  rewrite hand_consistent_tuned. intros (k & Hk & Hv & Ha & _). unfold hard_total. lia.
Qed.

Lemma consistent_sane h : hand_consistent h -> hand_sane h.
Proof.
  intros Hc. destruct (consistent_hard h Hc) as [Ha Ht]. split; [exact Ha|].
  rewrite Ht. apply hard_sum_lower.
Qed.

Lemma start_round_raise p deck bet e : start_round p deck bet = Raise e -> e = IndexError.
Proof.
  unfold start_round. intros E.
  match type of E with bind ?m _ = _ => destruct m as [[p1 deck1]|e1] eqn:E1 end;
    cbn [bind] in E.
  - apply hit_me_raise in E. apply E.
  - inversion E; subst. apply hit_me_raise in E1. apply E1.
Qed.

Lemma dealer_start_round_raise dealer deck (p : Player) e :
  dealer_start_round dealer deck p = Raise e -> e = IndexError.
Proof.
  unfold dealer_start_round. intros E.
  match type of E with bind ?m _ = _ => destruct m as [[[d1 deck1] p1]|e1] eqn:E1 end;
    cbn [bind] in E; [|inversion E; subst; eapply dealer_hit_me_raise; eassumption].
  match type of E with bind ?m _ = _ => destruct m as [[[d2 deck2] p2]|e2] eqn:E2 end;
    cbn [bind] in E; [|inversion E; subst; eapply dealer_hit_me_raise; eassumption].
  unfold py_index in E. destruct (nth_error _ 0); cbn [bind] in E; [discriminate|].
  inversion E; reflexivity.
Qed.

Lemma get_split_decision_raise (p : Player) dealer e :
  raises_key_error split_table ->
  get_split_decision p dealer = Raise e -> e <> OutOfFuel.
Proof.
  intros Hk. unfold get_split_decision, _search_split_table, up_card_rank, py_index.
  destruct (nth_error _ 0) as [c0|]; cbn [bind]; [|intros E; inversion E; discriminate].
  destruct (nth_error _ 1) as [c1|]; cbn [bind]; [|intros E; inversion E; discriminate].
  destruct (_ && _); [|discriminate].
  destruct (Dealer.up_card dealer) as [up|]; cbn [bind];
    [|intros E; inversion E; discriminate].
  intros E. apply Hk in E. subst e. discriminate.
Qed.

Lemma start_round_consistent p deck bet p' deck' :
  hand_consistent (BasicPlayer.hand p) ->
  start_round p deck bet = Ok (p', deck') ->
  hand_consistent (BasicPlayer.hand p').
Proof.
  unfold start_round. intros Hc E. bind_ok E. destruct r as [p1 deck1].
  destruct (hit_me_hand _ _ _ _ E0) as [c1 H1]. destruct (hit_me_hand _ _ _ _ E) as [c2 H2].
  rewrite H2, H1. apply drawn_into_consistent, drawn_into_consistent. exact Hc.
Qed.

Lemma dealer_start_round_sane dealer deck (p : Player) dealer' deck' p' :
  hand_sane (Dealer.hand dealer) ->
  dealer_start_round dealer deck p = Ok (dealer', deck', p') ->
  hand_sane (Dealer.hand dealer') /\ BasicPlayer.hand p' = BasicPlayer.hand p.
Proof.
  unfold dealer_start_round. intros Hs E.
  bind_ok E. destruct r as [[d1 deck1] p1]. bind_ok E. destruct r as [[d2 deck2] p2].
  bind_ok E. inversion E; subst. cbn [Dealer.hand Dealer.set_up_card].
  destruct (dealer_hit_me_inv _ _ _ _ _ _ E0) as (c1 & H1 & _).
  destruct (dealer_hit_me_inv _ _ _ _ _ _ E1) as (c2 & H2 & _).
  pose proof (dealer_hit_me_frame _ _ _ _ _ _ E0) as (_ & _ & Hp1 & _).
  pose proof (dealer_hit_me_frame _ _ _ _ _ _ E1) as (_ & _ & Hp2 & _).
  split; [rewrite H2, H1; apply drawn_into_sane, drawn_into_sane, Hs|congruence].
Qed.

Lemma deal_and_split_sane player dealer deck p1 dm d1 deck1 :
  hand_consistent (BasicPlayer.hand player) -> hand_sane (Dealer.hand dealer) ->
  deal_and_split player dealer deck = Ok (p1, dm, d1, deck1) ->
  hand_sane (BasicPlayer.hand p1) /\ hand_sane (Dealer.hand d1) /\
  forall d, dm = Some d -> hand_sane (BasicPlayer.hand d).
Proof.
  unfold deal_and_split. intros Hc Hd E.
  bind_ok E. destruct r as [p0 deck0].
  assert (H0 : hand_consistent (BasicPlayer.hand p0)).
  { destruct (dealt_bet_ok _ _ _ _ E0) as [b Hb].
    eapply start_round_consistent; eassumption. }
  bind_ok E. destruct r as [[d2 deck2] p2].
  destruct (dealer_start_round_sane _ _ _ _ _ _ Hd E1) as [Hd2 Hp2].
  rewrite <- Hp2 in H0.
  bind_ok E. destruct (r =? "y")%string.
  - bind_ok E. destruct r0 as [card rest]. apply py_pop_ok in E3.
    bind_ok E. destruct r0 as [p3 deck3]. bind_ok E. destruct r0 as [dm3 deck4].
    destruct (consistent_hard _ H0) as [Ha2 Ht2].
    destruct (hard_sum_lower (Hand.cards (BasicPlayer.hand p2))) as [Hnn Hlow].
    assert (Hs3 : hand_sane (BasicPlayer.hand p3) /\
                  hard_total (BasicPlayer.hand p2) + 1 <= hard_total (BasicPlayer.hand p3)).
    { match type of E4 with hit_me ?q _ = _ =>
        destruct (hit_me_climbs q _ _ _ Ha2 E4) as (A1 & A2 & _) end.
      cbn [BasicPlayer.hand BasicPlayer.set_hand] in A2.
      unfold hard_total, Hand.set_cards in *. cbn [Hand.value Hand.aces] in A2.
      split; [split; [exact A1|unfold hard_total; lia]|lia]. }
    assert (Hs4 : hand_sane (BasicPlayer.hand dm3)).
    { eapply hit_me_sane; [|exact E5]. split; cbn; unfold hard_total; cbn; lia. }
    destruct Hs3 as [[A1 A2] A3]. destruct Hs4 as [B1 B2].
    pose proof (card_value_pos card) as Hcv.
    destruct (negb (Card.rank_eqb (Card.rank card) Card.ace)) eqn:Hna;
      inversion E; subst; cbn [BasicPlayer.hand BasicPlayer.set_hand].
    + assert (Hin : Card.value card <= hard_total (BasicPlayer.hand p2)).
      { rewrite Ht2. apply Hlow; [rewrite E3; apply in_or_app; right; left; reflexivity|].
        apply negb_true_iff in Hna. exact Hna. }
      unfold hand_sane, hard_total in *. cbn [Hand.value Hand.aces Hand.set_value].
      split; [lia|]. split; [exact Hd2|]. intros d Hd'. inversion Hd'; subst.
      cbn [BasicPlayer.hand BasicPlayer.set_hand Hand.value Hand.aces Hand.set_value]. lia.
    + split; [split; assumption|]. split; [exact Hd2|].
      intros d Hd'. inversion Hd'; subst. split; assumption.
  - inversion E; subst. split; [apply consistent_sane, H0|]. split; [exact Hd2|].
    intros d Hd'. discriminate.
Qed.

Lemma deal_and_split_raise player dealer deck e :
  raises_key_error split_table ->
  deal_and_split player dealer deck = Raise e -> e <> OutOfFuel.
Proof.
  intros Hk. unfold deal_and_split. intros E.
  match type of E with bind ?m _ = _ => destruct m as [[p0 deck0]|e0] eqn:E0 end;
    cbn [bind] in E.
  2:{ inversion E; subst.
      destruct (dealt_bet_raise _ _ _ _ E0) as [-> | [b Hb]]; [discriminate|].
      apply start_round_raise in Hb. subst. discriminate. }
  match type of E with bind ?m _ = _ => destruct m as [[[d2 deck2] p2]|e1] eqn:E1 end;
    cbn [bind] in E.
  2:{ inversion E; subst. apply dealer_start_round_raise in E1. subst. discriminate. }
  match type of E with bind ?m _ = _ => destruct m as [dec|e2] eqn:E2 end;
    cbn [bind] in E.
  2:{ inversion E; subst. eapply get_split_decision_raise; eassumption. }
  destruct (dec =? "y")%string; [|discriminate].
  match type of E with bind ?m _ = _ => destruct m as [[card rest]|e3] eqn:E3 end;
    cbn [bind] in E.
  2:{ inversion E; subst. apply py_pop_raise in E3. destruct E3; subst. discriminate. }
  match type of E with bind ?m _ = _ => destruct m as [[p3 deck3]|e4] eqn:E4 end;
    cbn [bind] in E.
  2:{ inversion E; subst. apply hit_me_raise in E4. destruct E4; subst. discriminate. }
  match type of E with bind ?m _ = _ => destruct m as [[dm3 deck4]|e5] eqn:E5 end;
    cbn [bind] in E.
  2:{ inversion E; subst. apply hit_me_raise in E5. destruct E5; subst. discriminate. }
  destruct (negb _); discriminate.
Qed.

Lemma hand_new_consistent : hand_consistent Hand.new.
Proof. reflexivity. Qed.

Lemma init_round_enough fuel (player : Player) dealer deck :
  answers_known hard_table -> answers_known soft_table -> raises_key_error split_table ->
  hand_consistent (BasicPlayer.hand player) -> hand_sane (Dealer.hand dealer) ->
  (23 <= fuel)%nat ->
  init_round fuel player dealer deck <> Raise OutOfFuel.
Proof.
  intros Hh Hs Hk Hc Hd Hf. unfold init_round.
  destruct (deal_and_split player dealer deck) as [[[[p1 dm] d1] deck1]|e] eqn:E;
    cbn [bind].
  2:{ intros Heq. inversion Heq; subst. eapply deal_and_split_raise; eauto. }
  destruct (deal_and_split_sane _ _ _ _ _ _ _ Hc Hd E) as (Hp1 & Hd1 & Hdm).
  destruct dm as [dummy|]; [|apply round_enough; assumption].
  pose proof (round_enough fuel dummy d1 deck1 true Hh Hs (Hdm dummy eq_refl) Hd1 Hf) as Hr.
  destruct (round fuel dummy d1 deck1 true) as [[[dummy2 d2] deck2]|e] eqn:E2; cbn [bind].
  - apply round_resets_hands in E2. destruct E2 as (Hd2 & _).
    apply round_enough; try assumption. rewrite Hd2. apply consistent_sane, hand_new_consistent.
  - intros Heq. apply Hr. inversion Heq; reflexivity.
Qed.

Lemma init_round_clears fuel (player : Player) dealer deck p' dealer' deck' :
  init_round fuel player dealer deck = Ok (p', dealer', deck') ->
  BasicPlayer.hand p' = Hand.new /\ Dealer.hand dealer' = Hand.new.
Proof.
  unfold init_round. intros E. bind_ok E. destruct r as [[[q2 dm2] e2] k2].
  destruct dm2 as [dummy|].
  - bind_ok E. destruct r as [[dummy2 d2] deck2].
    apply round_resets_hands in E. intuition.
  - apply round_resets_hands in E. intuition.
Qed.

(** X20: when the two decision tables answer only "h", "s" or "d" (or raise
    [KeyError]) and the pair table raises nothing but [KeyError], no session
    hangs: started on a hand whose value is the one the rule derives and a
    dealer hand with no negative count, every number of rounds returns or
    raises a Python exception as soon as the loops are given 23
    iterations. *)
Theorem session_never_spins fuel num_rounds : forall (player : Player) dealer deck,
  answers_known hard_table -> answers_known soft_table -> raises_key_error split_table ->
  hand_consistent (BasicPlayer.hand player) -> hand_sane (Dealer.hand dealer) ->
  (23 <= fuel)%nat ->
  play_rounds fuel num_rounds player dealer deck <> Raise OutOfFuel.
Proof.
  intros player dealer deck Hh Hs Hk. revert player dealer deck.
  induction num_rounds as [|n IH]; intros player dealer deck Hc Hd Hf;
    cbn [play_rounds]; [discriminate|].
  pose proof (init_round_enough fuel player dealer deck Hh Hs Hk Hc Hd Hf) as Hi.
  destruct (init_round fuel player dealer deck) as [[[p1 d1] deck1]|e] eqn:E; cbn [bind].
  - destruct (init_round_clears _ _ _ _ _ _ _ E) as [Hp1 Hd1].
    apply IH; [rewrite Hp1; apply hand_new_consistent
              |rewrite Hd1; apply consistent_sane, hand_new_consistent|exact Hf].
  - intros Heq. apply Hi. inversion Heq; reflexivity.
Qed.

(** X5: a counting player's count follows the card it draws: after a draw it
    is the count before, or 0 when the draw found [cards_left] at 0 and
    reshuffled, plus the weight of the card that went to the hand; without
    card counting the count is not touched. *)
Theorem hit_me_counts_the_card p deck p' deck' :
  hit_me p deck = Ok (p', deck') ->
  exists card,
    Hand.cards (BasicPlayer.hand p') = Hand.cards (BasicPlayer.hand p) ++ [card] /\
    BasicPlayer.count p' =
      if BasicPlayer.card_counting p
      then (if Deck.is_empty deck then 0 else BasicPlayer.count p) + count_value card
      else BasicPlayer.count p.
Proof.
  intros E. destruct (hit_me_inv _ _ _ _ E) as (card & rest & Hc & Hh & _).
  exists card. split; [rewrite Hh; apply drawn_into_cards|].
  pose proof (hit_me_count _ _ _ _ E) as Hn.
  destruct (BasicPlayer.card_counting p); [|exact Hn].
  destruct Hn as (card' & rest' & Hp & Hn). apply py_pop_ok in Hp.
  fold (shoe_drawn_from deck) in Hp. rewrite Hc in Hp.
  apply app_inj_tail in Hp. destruct Hp as [_ ->]. exact Hn.
Qed.

(** *** Without a split the value stays on the cards *)

Lemma player_loop_consistent fuel : forall (p : Player) dealer deck p' deck',
  hand_consistent (BasicPlayer.hand p) ->
  player_loop fuel p dealer deck = Ok (p', deck') ->
  hand_consistent (BasicPlayer.hand p').
Proof.
  induction fuel as [|fuel IH]; intros p dealer deck p' deck' Hc E;
    cbn [player_loop] in E; destruct (BasicPlayer.is_done p);
    try (inversion E; subst; exact Hc); try discriminate.
  assert (Hhit : forall q deck1, hit_me p deck = Ok (q, deck1) ->
                                 hand_consistent (BasicPlayer.hand q)).
  { intros q deck1 Eq. destruct (hit_me_hand _ _ _ _ Eq) as [card ->].
    apply drawn_into_consistent, Hc. }
  bind_ok E.
  destruct (r =? "h")%string; [bind_ok E; destruct r0 as [q deck1]; eauto|].
  destruct (r =? "s")%string; [eapply IH; [|exact E]; exact Hc|].
  destruct (r =? "d")%string; [|eauto].
  bind_ok E. destruct r0 as [q deck1]. eapply IH; [|exact E]. cbn. eauto.
Qed.

Lemma dealer_loop_player_hand fuel : forall (p : Player) dealer deck p' dealer' deck',
  dealer_loop fuel p dealer deck = Ok (p', dealer', deck') ->
  BasicPlayer.hand p' = BasicPlayer.hand p.
Proof.
  induction fuel as [|fuel IH]; intros p dealer deck p' dealer' deck' E;
    cbn [dealer_loop] in E; destruct (Dealer.is_done dealer);
    try (inversion E; subst; reflexivity); try discriminate.
  destruct (dealer_get_decision dealer =? "h")%string.
  { bind_ok E. destruct r as [[d1 deck1] p1]. rewrite (IH _ _ _ _ _ _ E).
    apply (dealer_hit_me_frame _ _ _ _ _ _ E0). }
  destruct (dealer_get_decision dealer =? "s")%string; apply (IH _ _ _ _ _ _ E).
Qed.

(** X21: in a round without a split the hand that is settled has the value
    its cards give: dealt on an empty hand and not split, then played, the
    player's [value] and [aces] at the end of the decision loops are the
    ones the ace-adjustment rule derives from the hand's cards. *)
Theorem unsplit_round_settles_the_cards fuel (player : Player) dealer deck
    p1 d1 deck1 p2 d2 deck2 :
  BasicPlayer.hand player = Hand.new ->
  deal_and_split player dealer deck = Ok (p1, None, d1, deck1) ->
  round_play fuel p1 d1 deck1 false = Ok (p2, d2, deck2) ->
  hand_consistent (BasicPlayer.hand p1) /\ hand_consistent (BasicPlayer.hand p2).
Proof.
  intros Hn Hd E.
  assert (H1 : hand_consistent (BasicPlayer.hand p1)).
  { unfold deal_and_split in Hd. bind_ok Hd. destruct r as [p0 deck0].
    assert (H0 : hand_consistent (BasicPlayer.hand p0)).
    { destruct (dealt_bet_ok _ _ _ _ E0) as [b Hb].
      eapply start_round_consistent; [|exact Hb].
      rewrite Hn. apply hand_new_consistent. }
    bind_ok Hd. destruct r as [[d0 deck2'] p2'].
    assert (Hp : BasicPlayer.hand p2' = BasicPlayer.hand p0).
    { unfold dealer_start_round in E1.
      bind_ok E1. destruct r as [[da decka] pa]. bind_ok E1. destruct r as [[db deckb] pb].
      bind_ok E1. inversion E1; subst.
      pose proof (dealer_hit_me_frame _ _ _ _ _ _ E2) as (_ & _ & Ha & _).
      pose proof (dealer_hit_me_frame _ _ _ _ _ _ E3) as (_ & _ & Hb & _).
      congruence. }
    bind_ok Hd. destruct (r =? "y")%string.
    - bind_ok Hd. destruct r0. bind_ok Hd. destruct r0. bind_ok Hd. destruct r0.
      destruct (negb _); discriminate.
    - inversion Hd; subst. rewrite Hp. exact H0. }
  split; [exact H1|].
  unfold round_play, ace_split_draw, dealer_turn in E. cbn [bind] in E.
  bind_ok E. destruct r as [p3 deck3].
  pose proof (player_loop_consistent _ _ _ _ _ _ H1 E0) as H3.
  destruct (dealer_turn_entered p3).
  - rewrite (dealer_loop_player_hand _ _ _ _ _ _ _ E). exact H3.
  - inversion E; subst. exact H3.
Qed.

End Engine.

(** ** The bet

    [calculate_bet] on binary64 floats.  The conversion of an int rounds its
    magnitude to 53 bits; the lemmas below follow the rounding of the
    standard library's specification of the float operations far enough to
    say when the conversion overflows and that dividing a converted int by
    [52.0] keeps its sign. *)

Lemma digits2_size p : digits2_pos p = Pos.size p.
Proof. induction p; cbn; congruence. Qed.

Lemma Zdigits2_log2 p : Zpos (digits2_pos p) = Z.log2 (Zpos p) + 1.
Proof.
  rewrite digits2_size. destruct p; cbn [Z.log2 Pos.size]; lia.
Qed.

Lemma shr_1_m r : 0 <= shr_m r -> shr_m (shr_1 r) = Z.div2 (shr_m r).
Proof.
  destruct r as [m rr s]. cbn [shr_m]. intros Hm.
  destruct m as [|[p|p|]|p]; cbn; try reflexivity; lia.
Qed.

Lemma shr_1_nonneg r : 0 <= shr_m r -> 0 <= shr_m (shr_1 r).
Proof.
  intros H. rewrite shr_1_m by exact H. rewrite Z.div2_div. apply Z.div_pos; lia.
Qed.

Lemma iter_shr_m p : forall r, 0 <= shr_m r ->
  shr_m (iter_pos shr_1 p r) = Z.shiftr (shr_m r) (Zpos p) /\ 0 <= shr_m (iter_pos shr_1 p r).
Proof.
  induction p as [p IH|p IH|]; intros r Hr; cbn [iter_pos].
  - pose proof (shr_1_nonneg r Hr) as H1.
    destruct (IH (shr_1 r) H1) as [E1 N1].
    destruct (IH _ N1) as [E2 N2]. split; [|exact N2].
    rewrite E2, E1, shr_1_m by exact Hr.
    rewrite Z.div2_spec, !Z.shiftr_shiftr by lia. f_equal. lia.
  - destruct (IH r Hr) as [E1 N1]. destruct (IH _ N1) as [E2 N2]. split; [|exact N2].
    rewrite E2, E1, Z.shiftr_shiftr by lia. f_equal. lia.
  - split; [|apply shr_1_nonneg, Hr]. rewrite shr_1_m by exact Hr. apply Z.div2_spec.
Qed.

Lemma shr_spec r e n :
  0 <= shr_m r ->
  shr_m (fst (shr r e n)) = Z.shiftr (shr_m r) (Z.max 0 n) /\
  snd (shr r e n) = e + Z.max 0 n.
Proof.
  intros Hr. destruct n as [|p|p]; cbn [shr fst snd].
  - rewrite Z.shiftr_0_r. split; lia.
  - rewrite Z.max_r by lia. split; [apply iter_shr_m, Hr|reflexivity].
  - rewrite Z.max_l by lia. rewrite Z.shiftr_0_r. split; lia.
Qed.

Lemma shr_record_of_loc_m m l : shr_m (shr_record_of_loc m l) = m.
Proof. destruct l as [|[]]; reflexivity. Qed.

Lemma Zdigits2_pos_log2 m : 0 < m -> Zdigits2 m = Z.log2 m + 1.
Proof. destruct m as [|p|p]; try lia. intros _. apply Zdigits2_log2. Qed.

Lemma round_nearest_even_range m l :
  round_nearest_even m l = m \/ round_nearest_even m l = m + 1.
Proof.
  destruct l as [|[]]; cbn; auto. destruct (Z.even m); auto.
Qed.

Lemma shiftr_log2 a n :
  0 < a -> 0 <= n -> n <= Z.log2 a ->
  0 < Z.shiftr a n /\ Z.log2 (Z.shiftr a n) = Z.log2 a - n.
Proof.
  intros Ha Hn Hl. split.
  - assert (H0 : 0 <= Z.shiftr a n) by (apply Z.shiftr_nonneg; lia).
    assert (Hne : Z.shiftr a n <> 0).
    { intros E. apply Z.shiftr_eq_0_iff in E. lia. }
    lia.
  - rewrite Z.log2_shiftr by exact Ha. lia.
Qed.

(** The rounding step on a mantissa of at least [prec] bits in the normal
    range. *)
Lemma binary_round_aux_normal sx mx ex lx :
  0 < mx -> 52 <= Z.log2 mx -> -1074 <= Z.log2 mx + ex - 52 ->
  (binary_round_aux prec emax sx mx ex lx = S754_infinity sx /\
   971 <= Z.log2 mx + ex - 52) \/
  exists m e,
    binary_round_aux prec emax sx mx ex lx = S754_finite sx m e /\
    Z.log2 (Zpos m) = 52 /\ Z.log2 mx + ex - 52 <= e <= 971.
Proof.
  intros Hm Hd Hn. unfold binary_round_aux, shr_fexp.
  rewrite (Zdigits2_pos_log2 mx Hm).
  assert (F1 : fexp prec emax (Z.log2 mx + 1 + ex) - ex = Z.log2 mx - 52).
  { unfold fexp, SpecFloat.emin, prec, emax. lia. }
  rewrite F1.
  pose proof (shr_spec (shr_record_of_loc mx lx) ex (Z.log2 mx - 52)) as S1.
  rewrite shr_record_of_loc_m in S1. specialize (S1 ltac:(lia)).
  destruct (shr (shr_record_of_loc mx lx) ex (Z.log2 mx - 52)) as [r1 e1].
  cbn [fst snd] in S1. destruct S1 as [M1 E1]. rewrite Z.max_r in M1, E1 by lia.
  destruct (shiftr_log2 mx (Z.log2 mx - 52) Hm ltac:(lia) ltac:(lia)) as [P1 L1].
  rewrite <- M1 in P1, L1.
  set (m2 := round_nearest_even (shr_m r1) (loc_of_shr_record r1)).
  assert (R2 : 0 < m2 /\ 52 <= Z.log2 m2 <= 53).
  { destruct (round_nearest_even_range (shr_m r1) (loc_of_shr_record r1)) as [E|E];
      fold m2 in E; rewrite E.
    - lia.
    - split; [lia|]. pose proof (Z.log2_succ_le (shr_m r1)).
      pose proof (Z.log2_le_mono (shr_m r1) (shr_m r1 + 1)). unfold Z.succ in *. lia. }
  destruct R2 as [P2 L2].
  rewrite (Zdigits2_pos_log2 m2 P2).
  assert (F2 : fexp prec emax (Z.log2 m2 + 1 + e1) - e1 = Z.log2 m2 - 52).
  { unfold fexp, SpecFloat.emin, prec, emax. lia. }
  rewrite F2.
  pose proof (shr_spec (shr_record_of_loc m2 loc_Exact) e1 (Z.log2 m2 - 52)) as S3.
  rewrite shr_record_of_loc_m in S3. specialize (S3 ltac:(lia)).
  destruct (shr (shr_record_of_loc m2 loc_Exact) e1 (Z.log2 m2 - 52)) as [r3 e3].
  cbn [fst snd] in S3. destruct S3 as [M3 E3]. rewrite Z.max_r in M3, E3 by lia.
  destruct (shiftr_log2 m2 (Z.log2 m2 - 52) P2 ltac:(lia) ltac:(lia)) as [P3 L3].
  rewrite <- M3 in P3, L3.
  destruct (shr_m r3) as [|m3|m3]; try lia.
  unfold prec, emax. destruct (Z.leb_spec e3 (1024 - 53)) as [Hle|Hgt].
  - right. exists m3, e3. split; [reflexivity|]. split; lia.
  - left. split; [reflexivity|lia].
Qed.

Lemma log2_xO p : Z.log2 (Zpos p~0) = Z.log2 (Zpos p) + 1.
Proof. pose proof (Zdigits2_log2 p~0) as H1. pose proof (Zdigits2_log2 p) as H2.
  cbn [digits2_pos] in H1. lia. Qed.

Lemma log2_iter_xO p d : Z.log2 (Zpos (Pos.iter xO p d)) = Z.log2 (Zpos p) + Zpos d.
Proof.
  induction d as [|d IH] using Pos.peano_ind.
  - cbn [Pos.iter]. apply log2_xO.
  - rewrite Pos.iter_succ, log2_xO, IH. lia.
Qed.

(** [float(z)] before the overflow test: the nearest binary64 value of a
    non-zero integer is an infinity or a normal number of magnitude at
    least 1, with the sign of [z]. *)
Lemma binary_normalize_int z :
  z <> 0 ->
  (binary_normalize prec emax z 0 false = S754_infinity (z <? 0) /\
   1023 <= Z.log2 (Z.abs z)) \/
  exists m e,
    binary_normalize prec emax z 0 false = S754_finite (z <? 0) m e /\
    Z.log2 (Zpos m) = 52 /\ -52 <= e <= 971 /\ Z.log2 (Z.abs z) - 52 <= e.
Proof.
  intros Hz.
  assert (H : forall sx p,
             (binary_round prec emax sx p 0 = S754_infinity sx /\
              1023 <= Z.log2 (Zpos p)) \/
             exists m e, binary_round prec emax sx p 0 = S754_finite sx m e /\
                         Z.log2 (Zpos m) = 52 /\ -52 <= e <= 971 /\
                         Z.log2 (Zpos p) - 52 <= e).
  { intros sx p. unfold binary_round, shl_align.
    rewrite Zdigits2_log2.
    assert (F : fexp prec emax (Z.log2 (Zpos p) + 1 + 0) - 0 = Z.log2 (Zpos p) - 52).
    { pose proof (Z.log2_nonneg (Zpos p)). unfold fexp, SpecFloat.emin, prec, emax. lia. }
    replace (fexp prec emax (Z.log2 (Zpos p) + 1 + 0))
      with (Z.log2 (Zpos p) - 52) in * by lia.
    clear F. pose proof (Z.log2_nonneg (Zpos p)) as Hl.
    destruct (Z.log2 (Zpos p) - 52 - 0) as [|d|d] eqn:Ed.
    - destruct (binary_round_aux_normal sx (Zpos p) 0 loc_Exact) as [[E B]|(m & e & E & L & B)];
        try lia;
        first [left; split; [exact E|lia]
              |right; exists m, e; repeat split; try assumption; lia].
    - destruct (binary_round_aux_normal sx (Zpos p) 0 loc_Exact) as [[E B]|(m & e & E & L & B)];
        try lia;
        first [left; split; [exact E|lia]
              |right; exists m, e; repeat split; try assumption; lia].
    - pose proof (log2_iter_xO p d) as Li.
      destruct (binary_round_aux_normal sx (Zpos (Pos.iter xO p d)) (Z.log2 (Zpos p) - 52)
                  loc_Exact) as [[E B]|(m & e & E & L & B)];
        try lia;
        first [left; split; [exact E|lia]
              |right; exists m, e; repeat split; try assumption; lia]. }
  destruct z as [|p|p]; [contradiction| |]; cbn [binary_normalize Z.ltb Z.compare]; apply H.
Qed.

Lemma valid_normal s m e :
  Z.log2 (Zpos m) = 52 -> -1074 <= e <= 971 ->
  valid_binary (S754_finite s m e) = true.
Proof.
  intros L B. cbn [SpecFloat.valid_binary]. unfold bounded, canonical_mantissa.
  rewrite Zdigits2_log2, L. unfold fexp, SpecFloat.emin, prec, emax.
  apply andb_true_intro. split; [apply Z.eqb_eq|apply Z.leb_le]; lia.
Qed.

Lemma div_by_52 s m e :
  Z.log2 (Zpos m) = 52 -> -52 <= e <= 971 ->
  SFdiv prec emax (S754_finite s m e) spec_52 = S754_infinity s \/
  exists m' e', SFdiv prec emax (S754_finite s m e) spec_52 = S754_finite s m' e'.
Proof.
  intros L B. unfold spec_52. cbn [SFdiv]. unfold SFdiv_core_binary.
  rewrite !Zdigits2_pos_log2 by lia. rewrite L.
  replace (Z.log2 (Zpos 7318349394477056)) with 52 by reflexivity.
  assert (F : Z.min (fexp prec emax (52 + 1 + e - (52 + 1 + -47))) (e - -47) = e - 6).
  { unfold fexp, SpecFloat.emin, prec, emax. lia. }
  rewrite F. replace (e - -47 - (e - 6)) with 53 by lia.
  pose proof (Z.log2_spec (Zpos m) ltac:(lia)) as Hs. rewrite L in Hs.
  change (2 ^ 52) with 4503599627370496 in Hs.
  set (m' := Z.shiftl (Zpos m) 53).
  assert (Hm' : m' = Zpos m * 9007199254740992).
  { unfold m'. rewrite Z.shiftl_mul_pow2 by lia. reflexivity. }
  pose proof (Z.div_eucl_eq m' (Zpos 7318349394477056) ltac:(lia)) as Hq.
  pose proof (Z.mod_pos_bound m' (Zpos 7318349394477056) ltac:(lia)) as Hr.
  unfold Z.modulo in Hr.
  destruct (Z.div_eucl m' (Zpos 7318349394477056)) as [q r].
  assert (Hq52 : 4503599627370496 <= q) by lia.
  assert (Hl : 52 <= Z.log2 q).
  { change 52 with (Z.log2 4503599627370496). apply Z.log2_le_mono. exact Hq52. }
  rewrite xorb_false_r.
  destruct (binary_round_aux_normal s q (e - 6)
              (new_location (Zpos 7318349394477056) r)) as [[E _]|(m2 & e2 & E & _)];
    try lia; [left; exact E|right; exists m2, e2; exact E].
Qed.

Lemma Prim2SF_52 : Prim2SF (float_of_int 52) = spec_52.
Proof. vm_compute. reflexivity. Qed.

Lemma float_guard z f :
  py_float z = Some f ->
  PrimFloat.ltb 0 (PrimFloat.div f (float_of_int 52)) = (0 <? z).
Proof.
  unfold py_float. intros E.
  destruct (Z.eq_dec z 0) as [->|Hz].
  - cbn in E. inversion E; subst. vm_compute. reflexivity.
  - destruct (binary_normalize_int z Hz) as [[Ei _]|(m & e & Ef & L & B & _)].
    + rewrite Ei in E. discriminate.
    + rewrite Ef in E.
      assert (Hf : f = SF2Prim (S754_finite (z <? 0) m e)) by (inversion E; reflexivity).
      rewrite Hf. clear E Hf.
      rewrite ltb_spec, div_spec, Prim2SF_52.
      rewrite Prim2SF_SF2Prim by (apply valid_normal; [exact L|lia]).
      change (Prim2SF 0) with (S754_zero false).
      unfold SF64div.
      destruct (div_by_52 (z <? 0) m e L B) as [->|(m' & e' & ->)];
        cbn; destruct (Z.ltb_spec z 0); destruct (Z.ltb_spec 0 z); try reflexivity; lia.
Qed.

Lemma py_float_in_range z :
  Z.abs z < 2 ^ 1023 -> py_float z = Some (float_of_int z).
Proof.
  intros Hz. unfold py_float, float_of_int.
  destruct (Z.eq_dec z 0) as [->|Hne]; [reflexivity|].
  destruct (binary_normalize_int z Hne) as [[_ Hl]|(m & e & -> & _)]; [|reflexivity].
  assert (Z.log2 (Z.abs z) < 1023) by (apply Z.log2_lt_pow2; lia). lia.
Qed.

Lemma py_float_overflow z :
  2 ^ 1024 <= Z.abs z -> py_float z = None.
Proof.
  intros Hz. unfold py_float.
  assert (Hne : z <> 0) by (pose proof (Z.pow_pos_nonneg 2 1024); lia).
  destruct (binary_normalize_int z Hne) as [[-> _]|(m & e & _ & _ & B & Hl)]; [reflexivity|].
  assert (1024 <= Z.log2 (Z.abs z)) by (apply Z.log2_le_pow2; lia). lia.
Qed.

(** C7: on binary64 floats, when the conversions of the count, the bet unit
    and the number of cards left succeed, [calculate_bet] returns
    [max(bet, 0)] for [bet = bet_unit * true_count], where [true_count] is
    [count / (cards_left / 52.0)] if [cards_left > 0] and [count] otherwise,
    each operation rounded as binary64 rounds it; when one of the three
    conversions overflows it raises [OverflowError].  A conversion succeeds
    below [2^1023] in magnitude and overflows from [2^1024] on.  With count 4,
    bet unit 10 and 104 cards left the true count is 2.0 and the bet 20.0. *)
Theorem calculate_bet_formula (zen_count bet_unit cards_left : Z) :
  (forall fz fb fc : float,
     to_float zen_count = Some fz ->
     to_float bet_unit = Some fb ->
     to_float cards_left = Some fc ->
     calculate_bet zen_count bet_unit cards_left =
     Ok (py_max (mul fb (if 0 <? cards_left
                         then div fz (div fc (of_int 52))
                         else fz))
                (of_int 0))) /\
  (to_float (N:=float) zen_count = None \/ to_float (N:=float) bet_unit = None \/
   to_float (N:=float) cards_left = None ->
   calculate_bet (N:=float) zen_count bet_unit cards_left = Raise OverflowError) /\
  (forall z, Z.abs z < 2 ^ 1023 -> to_float z = Some (float_of_int z)) /\
  (forall z, 2 ^ 1024 <= Z.abs z -> to_float (N:=float) z = None) /\
  div (N:=float) (of_int 4) (div (of_int 104) (of_int 52)) = 2%float /\
  calculate_bet (N:=float) 4 10 104 = Ok 20%float.
Proof.
  split.
  { intros fz fb fc Hz Hb Hc. unfold calculate_bet, convert.
    rewrite Hc, Hz, Hb. cbn [bind].
    cbn [to_float PyNum_float] in Hc.
    cbn [gtb of_int div PyNum_float].
    change (float_of_int 0) with 0%float.
    rewrite (float_guard cards_left fc Hc). reflexivity. }
  split.
  { unfold calculate_bet, convert.
    intros [Hz | [Hb | Hc]].
    - destruct (to_float cards_left); cbn [bind]; [|reflexivity].
      rewrite Hz. reflexivity.
    - destruct (to_float cards_left); cbn [bind]; [|reflexivity].
      destruct (to_float zen_count); cbn [bind]; [|reflexivity].
      rewrite Hb. reflexivity.
    - rewrite Hc. reflexivity. }
  split; [exact py_float_in_range|].
  split; [exact py_float_overflow|].
  split; vm_compute; reflexivity.
Qed.

(** X16: on binary64 floats the bet [calculate_bet] returns is never below
    zero: [bet < 0] is false of it.  (It need not be a number: zero times an
    infinite true count is returned as it is.) *)
Theorem calculate_bet_floor (zen_count bet_unit cards_left : Z) (r : float) :
  calculate_bet zen_count bet_unit cards_left = Ok r ->
  PrimFloat.ltb r 0 = false.
Proof.
  unfold calculate_bet, convert.
  destruct (to_float cards_left) as [fc|]; cbn [bind]; [|discriminate].
  destruct (to_float zen_count) as [fz|]; cbn [bind]; [|discriminate].
  destruct (to_float bet_unit) as [fb|]; cbn [bind]; [|discriminate].
  intros E. inversion E as [Hr]. clear E Hr.
  unfold py_max. cbn [gtb of_int PyNum_float].
  change (float_of_int 0) with 0%float.
  match goal with
  | |- PrimFloat.ltb (if PrimFloat.ltb ?b 0 then _ else _) 0 = false =>
      destruct (PrimFloat.ltb b 0) eqn:Eb; [reflexivity|exact Eb]
  end.
Qed.

(** ** Concrete runs *)

(** A run is evaluated first; its result then fills in the states the
    statement asks for. *)
Ltac run :=
  match goal with
  | |- ?l = _ =>
      let v := eval vm_compute in l in
      transitivity v; [vm_compute; reflexivity | reflexivity]
  end.

(** C7 fails for a count beyond the binary64 range: the conversion
    [float(zen_count)] raises. *)
Lemma calculate_bet_overflows :
  0 <= 10 /\ 0 <= 104 /\
  calculate_bet (N:=float) (2 ^ 1024) 10 104 = Raise OverflowError.
Proof.
  split; [lia|]. split; [lia|]. vm_compute. reflexivity.
Qed.

(** Count 4, bet unit 10, 104 cards left: the three conversions succeed and
    the bet is [max(10.0 * (4.0 / (104.0 / 52.0)), 0)], which is 20.0. *)
Lemma calculate_bet_formula_witness :
  to_float 4 = Some 4%float /\
  to_float 10 = Some 10%float /\
  to_float 104 = Some 104%float /\
  calculate_bet (N:=float) 4 10 104 =
  Ok (py_max (mul 10%float (div 4%float (div 104%float (of_int 52)))) (of_int 0)) /\
  to_float (N:=float) (2 ^ 1024) = None /\
  calculate_bet (N:=float) 4 (2 ^ 1024) 104 = Raise OverflowError.
Proof.
  assert (Hz : to_float 4 = Some 4%float) by (vm_compute; reflexivity).
  assert (Hb : to_float 10 = Some 10%float) by (vm_compute; reflexivity).
  assert (Hc : to_float 104 = Some 104%float) by (vm_compute; reflexivity).
  split; [exact Hz|]. split; [exact Hb|]. split; [exact Hc|].
  split; [exact (proj1 (calculate_bet_formula 4 10 104) _ _ _ Hz Hb Hc)|].
  destruct (calculate_bet_formula 4 (2 ^ 1024) 104) as (_ & Hraise & _ & Hover & _).
  assert (Hn : to_float (N:=float) (2 ^ 1024) = None)
    by (apply Hover; vm_compute; discriminate).
  split; [exact Hn|]. apply Hraise. right. left. exact Hn.
Defined.


(** A draw that turns a consistent hand into a consistent hand: an ace and a
    six, then a nine. *)
Lemma hit_me_consistent_witness :
  exists p' deck',
    hit_me (N:=Q) Sample.hi_lo Sample.shuffled
      (Sample.to_act (Sample.hand_of [Card.ace; Card.R6] 17 1)) (Sample.shoe [Card.R9])
    = Ok (p', deck') /\
    BasicPlayer.hand p' = Sample.hand_of [Card.ace; Card.R6; Card.R9] 16 0 /\
    hand_consistent (BasicPlayer.hand p').
Proof.
  eexists _, _. split; [run|]. split; [run|].
  eapply (hit_me_consistent Sample.hi_lo Sample.shuffled
            (Sample.to_act (Sample.hand_of [Card.ace; Card.R6] 17 1)) (Sample.shoe [Card.R9]));
    [vm_compute; reflexivity | run].
Defined.

(** C1 at a pair of eights that is split, the player drawing an ace: the
    hand holds an eight and an ace, which the rule values at 19 with one ace
    counted as 11, and the value patched after the draw is 9 with no ace at
    11.  At a pair of aces that is split: the dummy holds an ace and a nine
    (20 by the rule) with value 9, and its round then restarts the value at
    11 and draws a three, leaving 14 with one ace at 11 on a hand the rule
    values at 13 with none. *)
Theorem split_leaves_value_off_the_cards :
  (exists p dummy dealer deck,
     deal_and_split (N:=Q) Sample.hi_lo Sample.shuffled Sample.pairs
       Sample.player Dealer.new
       (Sample.shoe [Card.R8; Card.R8; Card.R10; Card.R7; Card.ace; Card.R5])
     = Ok (p, Some dummy, dealer, deck) /\
     BasicPlayer.hand p = Sample.hand_of [Card.R8; Card.ace] 9 0 /\
     derived_value (Hand.cards (BasicPlayer.hand p)) = (19, 1) /\
     ~ hand_consistent (BasicPlayer.hand p)) /\
  (exists p dummy dealer deck dummy' deck',
     deal_and_split (N:=Q) Sample.hi_lo Sample.shuffled Sample.pairs
       Sample.player Dealer.new
       (Sample.shoe [Card.ace; Card.ace; Card.R10; Card.R7; Card.R5; Card.R9; Card.R3; Card.R4])
     = Ok (p, Some dummy, dealer, deck) /\
     BasicPlayer.hand p = Sample.hand_of [Card.ace; Card.R5] 17 1 /\
     derived_value (Hand.cards (BasicPlayer.hand p)) = (16, 1) /\
     BasicPlayer.hand dummy = Sample.hand_of [Card.ace; Card.R9] 9 0 /\
     derived_value (Hand.cards (BasicPlayer.hand dummy)) = (20, 1) /\
     ace_split_draw Sample.hi_lo Sample.shuffled dummy deck true = Ok (dummy', deck') /\
     BasicPlayer.hand dummy' = Sample.hand_of [Card.ace; Card.R9; Card.R3] 14 1 /\
     derived_value (Hand.cards (BasicPlayer.hand dummy')) = (13, 0)).
Proof.
  split.
  - eexists _, _, _, _. split; [run|]. split; [run|]. split; [run|].
    unfold hand_consistent. vm_compute. discriminate.
  - eexists _, _, _, _, _, _. repeat (split; [run|]). run.
Qed.

(** C2 on a pair of eights against a dealer holding ten and six: the dummy
    stands on 17 and is settled against the dealer's ten, six, five; that
    round ends by clearing the dealer's hand; the primary hand, which
    consulted the same up-card, the ten, is then settled against a dealer
    hand drawn anew from nothing: four, nine, six. *)
Theorem split_round_redeals_dealer :
  exists p dummy d0 deck0 dummy1 d1 deck1 dummy2 d2 deck2 p3 d3 deck3,
    deal_and_split (N:=Q) Sample.hi_lo Sample.shuffled Sample.pairs
      Sample.player Dealer.new
      (Sample.shoe [Card.R8; Card.R8; Card.R10; Card.R6; Card.R10; Card.R9;
                    Card.R5; Card.R4; Card.R9; Card.R6])
    = Ok (p, Some dummy, d0, deck0) /\
    Dealer.hand d0 = Sample.hand_of [Card.R10; Card.R6] 16 0 /\
    round_play Sample.hi_lo Sample.shuffled Sample.hard Sample.soft 30 dummy d0 deck0 true
    = Ok (dummy1, d1, deck1) /\
    Dealer.hand d1 = Sample.hand_of [Card.R10; Card.R6; Card.R5] 21 0 /\
    round Sample.hi_lo Sample.shuffled Sample.hard Sample.soft 30 dummy d0 deck0 true
    = Ok (dummy2, d2, deck2) /\
    Dealer.hand d2 = Hand.new /\
    round_play Sample.hi_lo Sample.shuffled Sample.hard Sample.soft 30
      (add_totals p (Some dummy2)) d2 deck2 true
    = Ok (p3, d3, deck3) /\
    Dealer.hand d3 = Sample.hand_of [Card.R4; Card.R9; Card.R6] 19 0 /\
    Dealer.up_card d0 = Some (Sample.card Card.R10) /\
    Dealer.up_card d3 = Some (Sample.card Card.R10).
Proof.
  eexists _, _, _, _, _, _, _, _, _, _, _, _, _.
  repeat (split; [run|]). run.
Qed.

(** C3 fails at 21: the player is dealt ten and five, hits a six and stands
    on 21; the dealer, on ten and six, would hit, yet the dealer's turn is
    not entered and the dealer goes to settlement on the two cards dealt. *)
Lemma dealer_skipped_at_21 :
  exists p d deck p' d' deck',
    deal_and_split (N:=Q) Sample.hi_lo Sample.shuffled Sample.pairs
      Sample.player Dealer.new
      (Sample.shoe [Card.R10; Card.R5; Card.R10; Card.R6; Card.R6; Card.R5])
    = Ok (p, None, d, deck) /\
    round_play Sample.hi_lo Sample.shuffled Sample.hard Sample.soft 30 p d deck false
    = Ok (p', d', deck') /\
    BasicPlayer.hand p' = Sample.hand_of [Card.R10; Card.R5; Card.R6] 21 0 /\
    Hand.value (BasicPlayer.hand p') <= 21 /\
    dealer_turn_entered p' = false /\
    d' = d /\ deck' = Sample.shoe [Card.R5] /\
    Dealer.hand d' = Sample.hand_of [Card.R10; Card.R6] 16 0 /\
    Dealer.is_done d' = false /\
    dealer_get_decision d' = "h"%string.
Proof.
  eexists _, _, _, _, _, _.
  split; [run|]. split; [run|]. split; [run|].
  split; [vm_compute; discriminate|]. repeat (split; [run|]). run.
Qed.

Lemma dealer_turn_guard_witness :
  let p := Sample.holding (Sample.hand_of [Card.R10; Card.R5; Card.R6] 21 0) in
  let d := Sample.dealer_with (Sample.hand_of [Card.R10; Card.R6] 16 0) false in
  let deck := Sample.shoe [Card.R5] in
  21 <= Hand.value (BasicPlayer.hand p) /\
  dealer_turn Sample.hi_lo Sample.shuffled 30 p d deck = Ok (p, d, deck).
Proof.
  intros p d deck.
  assert (Hv : 21 <= Hand.value (BasicPlayer.hand p)) by (cbn; lia).
  split; [exact Hv|].
  exact (proj1 (proj2 (dealer_turn_guard Sample.hi_lo Sample.shuffled 30 p d deck)) Hv).
Defined.

(** Player on 22, dealer on 25: the player loses. *)
Lemma settle_precedence_witness :
  let p := Sample.holding (Sample.hand_of [Card.R10; Card.R5; Card.R7] 22 0) in
  let d := Sample.dealer_with (Sample.hand_of [Card.R10; Card.R5; Card.R10] 25 0) true in
  21 < Hand.value (BasicPlayer.hand p) /\
  21 < Hand.value (Dealer.hand d) /\
  fst (settle p d) = goes_bust p /\
  BasicPlayer.losses (fst (settle p d)) = 1 /\
  BasicPlayer.busts (fst (settle p d)) = 1 /\
  BasicPlayer.wins (fst (settle p d)) = 0 /\
  BasicPlayer.draws (fst (settle p d)) = 0.
Proof.
  intros p d.
  assert (Hv : 21 < Hand.value (BasicPlayer.hand p)) by (cbn; lia).
  split; [exact Hv|]. split; [cbn; lia|].
  destruct (proj1 (settle_precedence p d) Hv) as (E & Hl & Hb & Hw & Hd & He).
  rewrite E, Hl, Hb, Hw, Hd. repeat split.
Defined.

(** C6 on a pair of eights that is split by a counting player: six cards
    leave the shoe, of Hi-Lo weights 0, 0, -1, 0, -1 and +1, and the count is
    -2: the five dealt to it and drawn by the player and the dealer, without
    the dummy's.  When the dummy's draw finds the shoe empty and reshuffles
    it, the count stays at -2. *)
Theorem dummy_draws_are_not_counted :
  (exists p dummy dealer deck,
     deal_and_split (N:=Q) Sample.hi_lo Sample.shuffled Sample.pairs
       Sample.counter Dealer.new
       (Sample.shoe [Card.R8; Card.R8; Card.R10; Card.R7; Card.ace; Card.R5])
     = Ok (p, Some dummy, dealer, deck) /\
     Hand.cards (BasicPlayer.hand dummy) = map Sample.card [Card.R8; Card.R5] /\
     Deck.shuffles deck = 0%nat /\
     BasicPlayer.card_counting dummy = false /\
     BasicPlayer.count p = -2 /\
     fold_right Z.add 0
       (map Sample.hi_lo
          (map Sample.card [Card.R8; Card.R8; Card.R10; Card.R7; Card.ace; Card.R5]))
     = -1) /\
  (exists p dummy dealer deck,
     deal_and_split (N:=Q) Sample.hi_lo Sample.shuffled Sample.pairs
       Sample.counter Dealer.new
       (Sample.shoe [Card.R8; Card.R8; Card.R10; Card.R7; Card.ace])
     = Ok (p, Some dummy, dealer, deck) /\
     Hand.cards (BasicPlayer.hand dummy) = map Sample.card [Card.R8; Card.R10] /\
     Deck.shuffles deck = 1%nat /\
     BasicPlayer.count p = -2).
Proof.
  split.
  - eexists _, _, _, _. repeat (split; [run|]). run.
  - eexists _, _, _, _. repeat (split; [run|]). run.
Qed.



(** A round without a split, run to its end: ten and five, a six, a stand
    on 21 against the dealer's 16. *)
Lemma init_round_counters_witness :
  exists p' dealer' deck',
    init_round (N:=Q) Sample.hi_lo Sample.shuffled Sample.hard Sample.soft Sample.pairs 30
      Sample.player Dealer.new
      (Sample.shoe [Card.R10; Card.R5; Card.R10; Card.R6; Card.R6; Card.R5])
    = Ok (p', dealer', deck') /\
    BasicPlayer.rounds p' = 1 /\ BasicPlayer.wins p' = 1 /\
    one_outcome Sample.player p' /\ counters_ok p'.
Proof.
  eexists _, _, _. split; [run|]. split; [run|]. split; [run|].
  eapply (init_round_counters Sample.hi_lo Sample.shuffled Sample.hard Sample.soft
            Sample.pairs 30 Sample.player Dealer.new
            (Sample.shoe [Card.R10; Card.R5; Card.R10; Card.R6; Card.R6; Card.R5])).
  - vm_compute. reflexivity.
  - run.
  - run.
Defined.

(** C10 fails when the doubled hand draws past 21: ten and two against the
    dealer's ten and seven, the table says "d" on the hard 12, the one card
    drawn is a king, the turn ends by doubling and the round is counted in
    the busts. *)
Lemma doubled_hand_counted_as_bust :
  exists p d deck q deck' p' d' deck'',
    deal_and_split (N:=Q) Sample.hi_lo Sample.shuffled Sample.pairs
      Sample.player Dealer.new
      (Sample.shoe [Card.R10; Card.R2; Card.R10; Card.R7; Card.king])
    = Ok (p, None, d, deck) /\
    get_other_decision Sample.hard_rash Sample.soft p d = Ok "d"%string /\
    hit_me Sample.hi_lo Sample.shuffled p deck = Ok (q, deck') /\
    player_loop Sample.hi_lo Sample.shuffled Sample.hard_rash Sample.soft 30 p d deck
    = Ok (doubles q, deck') /\
    Hand.value (BasicPlayer.hand q) = 22 /\
    round Sample.hi_lo Sample.shuffled Sample.hard_rash Sample.soft 30 p d deck false
    = Ok (p', d', deck'') /\
    BasicPlayer.busts p = 0 /\
    BasicPlayer.busts p' = 1 /\
    BasicPlayer.stands p' = 0.
Proof.
  eexists _, _, _, _, _, _, _, _.
  split; [run|]. split; [run|]. split; [run|]. split; [run|]. split; [run|].
  split; [run|]. split; [run|]. split; run.
Qed.

(** Hard 11 is doubled: one card, the bet at 2000, the turn over, no stand
    and no bust counted, by the turn or by the settlement of the 20 the hand
    ends on. *)
Lemma doubles_frame_witness :
  let p := Sample.to_act (Sample.hand_of [Card.R5; Card.R6] 11 0) in
  let d := Sample.dealer_with (Sample.hand_of [Card.R10; Card.R6] 16 0) false in
  exists p' deck',
    hit_me Sample.hi_lo Sample.shuffled p (Sample.shoe [Card.R9]) = Ok (p', deck') /\
    player_loop Sample.hi_lo Sample.shuffled Sample.hard Sample.soft 1 p d (Sample.shoe [Card.R9])
    = Ok (doubles p', deck') /\
    BasicPlayer.stands (doubles p') = 0 /\
    BasicPlayer.busts (doubles p') = 0 /\
    BasicPlayer.stands (fst (settle (doubles p') d)) = 0 /\
    BasicPlayer.busts (fst (settle (doubles p') d)) = 0.
Proof.
  intros p d. eexists _, _. split; [run|].
  destruct (doubles_frame Sample.hi_lo Sample.shuffled Sample.hard Sample.soft p)
    as (_ & _ & _ & _ & _ & _ & Hturn).
  destruct (Hturn 0%nat d (Sample.shoe [Card.R9]) _ _
              ltac:(vm_compute; reflexivity) ltac:(run) ltac:(run))
    as (Hloop & Hs & Hb & Hsettle).
  split; [exact Hloop|]. split; [exact Hs|]. split; [exact Hb|].
  exact (Hsettle d).
Defined.

(** ** Concrete runs of the further properties *)

Ltac close := first [ run | vm_compute; reflexivity | vm_compute; discriminate ].

(** A count of -3 gives the bet 0; a count of -(10^308) with one card left
    and a bet unit of 0 gives zero times minus infinity, which is not a
    number and not below zero. *)
Lemma calculate_bet_floor_witness :
  calculate_bet (N:=float) (-3) 10 104 = Ok 0%float /\
  PrimFloat.ltb 0 0 = false /\
  calculate_bet (N:=float) (- 10 ^ 308) 0 1 = Ok nan /\
  PrimFloat.ltb nan 0 = false.
Proof.
  assert (E1 : calculate_bet (N:=float) (-3) 10 104 = Ok 0%float)
    by (vm_compute; reflexivity).
  assert (E2 : calculate_bet (N:=float) (- 10 ^ 308) 0 1 = Ok nan)
    by (vm_compute; reflexivity).
  split; [exact E1|]. split; [exact (calculate_bet_floor _ _ _ _ E1)|].
  split; [exact E2|]. exact (calculate_bet_floor _ _ _ _ E2).
Defined.

Lemma sample_hard_known : answers_known Sample.hard.
Proof.
  intros v up. unfold Sample.hard.
  destruct ((v <? 4) || (v >? 21)); [left; reflexivity|right].
  destruct (v =? 11); [eexists; split; [reflexivity|auto]|].
  destruct (v <? 17); eexists; (split; [reflexivity|auto]).
Qed.

Lemma sample_soft_known : answers_known Sample.soft.
Proof.
  intros v up. unfold Sample.soft.
  destruct ((v <? 12) || (v >? 21)); [left; reflexivity|right].
  destruct (v <? 18); eexists; (split; [reflexivity|auto]).
Qed.

Lemma sample_pairs_total : raises_key_error Sample.pairs.
Proof. intros r up e. unfold Sample.pairs. destruct r; discriminate. Qed.

(** Ace and six, then a nine: the ace goes down to 1, the hand is a hard
    16. *)
Lemma hit_me_no_soft_bust_witness :
  exists p' deck',
    hit_me (N:=Q) Sample.hi_lo Sample.shuffled
      (Sample.to_act (Sample.hand_of [Card.ace; Card.R6] 17 1)) (Sample.shoe [Card.R9])
    = Ok (p', deck') /\
    (0 <= Hand.aces (BasicPlayer.hand p') /\
     (0 < Hand.aces (BasicPlayer.hand p') -> Hand.value (BasicPlayer.hand p') <= 21)).
Proof.
  eexists _, _. split; [run|].
  eapply (hit_me_no_soft_bust Sample.hi_lo Sample.shuffled
           (Sample.to_act (Sample.hand_of [Card.ace; Card.R6] 17 1)) (Sample.shoe [Card.R9]));
    close.
Defined.

Lemma hit_me_moves_one_card_witness :
  exists p' deck',
    hit_me (N:=Q) Sample.hi_lo Sample.shuffled
      (Sample.to_act (Sample.hand_of [Card.ace; Card.R6] 17 1))
      (Sample.shoe [Card.R9; Card.R4])
    = Ok (p', deck') /\
    deck' = Sample.shoe [Card.R4] /\ deck_ok deck'.
Proof.
  eexists _, _. split; [run|]. split; [close|].
  refine (proj2 (proj2 (proj2
            (hit_me_moves_one_card Sample.hi_lo Sample.shuffled
               (Sample.to_act (Sample.hand_of [Card.ace; Card.R6] 17 1))
               (Sample.shoe [Card.R9; Card.R4]) _ _ _))) _); close.
Defined.

(** A shoe with cards gives a card; an empty shoe that reshuffles to nothing
    raises [IndexError]. *)
Lemma hit_me_fails_on_empty_shoe_witness :
  (exists p' deck',
     hit_me (N:=Q) Sample.hi_lo Sample.shuffled Sample.player (Sample.shoe [Card.R9])
     = Ok (p', deck')) /\
  hit_me (N:=Q) Sample.hi_lo (fun _ _ => []) Sample.player (Sample.shoe [])
  = Raise IndexError.
Proof.
  split.
  - eapply (proj2 (hit_me_fails_on_empty_shoe Sample.hi_lo Sample.shuffled
                    Sample.player (Sample.shoe [Card.R9]))); close.
  - eapply (proj1 (hit_me_fails_on_empty_shoe Sample.hi_lo (fun _ _ => [])
                    Sample.player (Sample.shoe [])) IndexError).
    split; reflexivity.
Defined.

(** A counting player at 7 draws from an empty shoe, which reshuffles and
    gives a ten: the count restarts at 0 and takes the weight of the ten. *)
Lemma hit_me_counts_the_card_witness :
  exists p' deck',
    hit_me (N:=Q) Sample.hi_lo Sample.shuffled
      (BasicPlayer.set_count Sample.counter 7) (Sample.shoe [])
    = Ok (p', deck') /\
    BasicPlayer.count p' = -1 /\
    exists card,
      Hand.cards (BasicPlayer.hand p')
      = Hand.cards (BasicPlayer.hand (BasicPlayer.set_count Sample.counter 7)) ++ [card] /\
      BasicPlayer.count p' =
        if BasicPlayer.card_counting (BasicPlayer.set_count Sample.counter 7)
        then (if Deck.is_empty (Sample.shoe []) then 0
              else BasicPlayer.count (BasicPlayer.set_count Sample.counter 7))
             + Sample.hi_lo card
        else BasicPlayer.count (BasicPlayer.set_count Sample.counter 7).
Proof.
  eexists _, _. split; [run|]. split; [close|].
  eapply (hit_me_counts_the_card Sample.hi_lo Sample.shuffled
           (BasicPlayer.set_count Sample.counter 7) (Sample.shoe [])).
  close.
Defined.

(** Ten and five, then a six: 21 on three cards, and the turn is still
    open. *)
Lemma hit_me_is_done_witness :
  exists p' deck',
    hit_me (N:=Q) Sample.hi_lo Sample.shuffled
      (Sample.to_act (Sample.hand_of [Card.R10; Card.R5] 15 0)) (Sample.shoe [Card.R6])
    = Ok (p', deck') /\
    Hand.value (BasicPlayer.hand p') = 21 /\
    BasicPlayer.is_done p' = false /\
    (BasicPlayer.is_done p' = true <->
     BasicPlayer.is_done (Sample.to_act (Sample.hand_of [Card.R10; Card.R5] 15 0)) = true \/
     21 < Hand.value (BasicPlayer.hand p') \/
     (py_len (Hand.cards (BasicPlayer.hand p')) = 2 /\
      Hand.value (BasicPlayer.hand p') = 21)).
Proof.
  eexists _, _. split; [run|]. split; [close|]. split; [close|].
  eapply (hit_me_is_done Sample.hi_lo Sample.shuffled
           (Sample.to_act (Sample.hand_of [Card.R10; Card.R5] 15 0)) (Sample.shoe [Card.R6])).
  close.
Defined.

(** A ten and an ace: two cards, 21, the turn over. *)
Lemma start_round_deals_two_witness :
  exists p' deck',
    start_round (N:=Q) Sample.hi_lo Sample.shuffled Sample.player
      (Sample.shoe [Card.R10; Card.ace]) (1000 # 1)
    = Ok (p', deck') /\
    BasicPlayer.is_done p' = true /\
    ((exists c1 c2, Hand.cards (BasicPlayer.hand p') = [c1; c2]) /\
     hand_consistent (BasicPlayer.hand p') /\
     4 <= Hand.value (BasicPlayer.hand p') <= 21 /\
     (BasicPlayer.is_done p' = true <-> Hand.value (BasicPlayer.hand p') = 21) /\
     BasicPlayer.current_bet p' = (1000 # 1) /\
     BasicPlayer.total_bets p' = add (BasicPlayer.total_bets Sample.player) (1000 # 1)).
Proof.
  eexists _, _. split; [run|]. split; [close|].
  eapply (start_round_deals_two Sample.hi_lo Sample.shuffled Sample.player
           (Sample.shoe [Card.R10; Card.ace]) (1000 # 1)); close.
Defined.

(** A pair of eights against a ten is answered by the pair table; an empty
    hand raises. *)
Lemma get_split_decision_cases_witness :
  get_split_decision Sample.pairs
    (Sample.to_act (Sample.hand_of [Card.R8; Card.R8] 16 0))
    (Sample.dealer_with (Sample.hand_of [Card.R10; Card.R6] 16 0) false)
  = Sample.pairs Card.R8 Card.R10 /\
  get_split_decision Sample.pairs Sample.player
    (Sample.dealer_with (Sample.hand_of [Card.R10; Card.R6] 16 0) false)
  = Raise IndexError.
Proof.
  split.
  - eapply (proj2 (proj2 (get_split_decision_cases Sample.pairs
                           (Sample.to_act (Sample.hand_of [Card.R8; Card.R8] 16 0))
                           (Sample.dealer_with (Sample.hand_of [Card.R10; Card.R6] 16 0) false)))
             (Sample.card Card.R8) (Sample.card Card.R8) (Sample.card Card.R10));
      reflexivity.
  - eapply (proj1 (get_split_decision_cases Sample.pairs Sample.player
                    (Sample.dealer_with (Sample.hand_of [Card.R10; Card.R6] 16 0) false))).
    vm_compute. reflexivity.
Defined.

Lemma round_outcome_flags_witness :
  counters_ok Sample.scored /\
  ~ counters_ok (round_outcome Sample.scored false false false).
Proof.
  assert (Hok : counters_ok Sample.scored) by reflexivity.
  split; [exact Hok|].
  exact (proj2 (proj2 (proj2 (proj2 (round_outcome_flags Sample.scored)))) Hok).
Defined.

(** Hard 15 hits a six and stands on 21. *)
Lemma loops_end_done_witness :
  exists p' deck',
    player_loop (N:=Q) Sample.hi_lo Sample.shuffled Sample.hard Sample.soft 30
      (Sample.to_act (Sample.hand_of [Card.R10; Card.R5] 15 0))
      (Sample.dealer_with (Sample.hand_of [Card.R10; Card.R6] 16 0) false)
      (Sample.shoe [Card.R6])
    = Ok (p', deck') /\
    Hand.value (BasicPlayer.hand p') = 21 /\
    BasicPlayer.is_done p' = true.
Proof.
  eexists _, _. split; [run|]. split; [close|].
  eapply (proj1 (loops_end_done Sample.hi_lo Sample.shuffled Sample.hard Sample.soft 30
                   (Sample.to_act (Sample.hand_of [Card.R10; Card.R5] 15 0))
                   (Sample.dealer_with (Sample.hand_of [Card.R10; Card.R6] 16 0) false)
                   (Sample.shoe [Card.R6]))).
  close.
Defined.

(** A cell holding "x" at hard 16: the turn is still running after a
    thousand iterations. *)
Lemma player_loop_spins_on_unknown_answer_witness :
  player_loop (N:=Q) Sample.hi_lo Sample.shuffled Sample.hard_typo Sample.soft 1000
    (Sample.to_act (Sample.hand_of [Card.R10; Card.R6] 16 0))
    (Sample.dealer_with (Sample.hand_of [Card.R10; Card.R6] 16 0) false)
    (Sample.shoe [Card.R6])
  = Raise OutOfFuel.
Proof.
  eapply (player_loop_spins_on_unknown_answer Sample.hi_lo Sample.shuffled
           Sample.hard_typo Sample.soft
           (Sample.to_act (Sample.hand_of [Card.R10; Card.R6] 16 0))
           (Sample.dealer_with (Sample.hand_of [Card.R10; Card.R6] 16 0) false)
           (Sample.shoe [Card.R6]) "x"%string);
    first [reflexivity | discriminate].
Defined.

Lemma player_loop_ends_within_23_witness :
  player_loop (N:=Q) Sample.hi_lo Sample.shuffled Sample.hard Sample.soft 23
    (Sample.to_act (Sample.hand_of [Card.R2; Card.R2] 4 0))
    (Sample.dealer_with (Sample.hand_of [Card.R10; Card.R6] 16 0) false)
    (Sample.shoe [Card.R6])
  <> Raise OutOfFuel.
Proof.
  eapply (player_loop_ends_within_23 Sample.hi_lo Sample.shuffled Sample.hard Sample.soft).
  - exact sample_hard_known.
  - exact sample_soft_known.
  - vm_compute. discriminate.
  - vm_compute. discriminate.
  - apply le_n.
Defined.

(** The round of ten, five, six against ten and six. *)
Lemma round_leaves_table_clear_witness :
  exists p' dealer' deck',
    round (N:=Q) Sample.hi_lo Sample.shuffled Sample.hard Sample.soft 30
      (Sample.to_act (Sample.hand_of [Card.R10; Card.R5] 15 0))
      (Sample.dealer_with (Sample.hand_of [Card.R10; Card.R6] 16 0) false)
      (Sample.shoe [Card.R6]) false
    = Ok (p', dealer', deck') /\
    (BasicPlayer.hand p' = Hand.new /\
     BasicPlayer.is_done p' = false /\
     BasicPlayer.current_bet p' = of_int 0 /\
     Dealer.hand dealer' = Hand.new /\
     Dealer.is_done dealer' = false /\
     Dealer.up_card dealer'
     = Dealer.up_card (Sample.dealer_with (Sample.hand_of [Card.R10; Card.R6] 16 0) false)).
Proof.
  eexists _, _, _. split; [run|].
  eapply (round_leaves_table_clear Sample.hi_lo Sample.shuffled Sample.hard Sample.soft 30
           (Sample.to_act (Sample.hand_of [Card.R10; Card.R5] 15 0))
           (Sample.dealer_with (Sample.hand_of [Card.R10; Card.R6] 16 0) false)
           (Sample.shoe [Card.R6]) false).
  close.
Defined.

Lemma add_totals_merges_witness :
  counters_ok Sample.scored /\
  counters_ok (add_totals Sample.scored (Some Sample.scored)) /\
  BasicPlayer.rounds (add_totals Sample.scored (Some Sample.scored)) = 8.
Proof.
  assert (Hok : counters_ok Sample.scored) by reflexivity.
  split; [exact Hok|]. split; [|reflexivity].
  destruct (add_totals_merges Sample.scored Sample.scored) as (_ & _ & Hm).
  exact (Hm Hok Hok).
Defined.

(** A pair of eights is split: the call counts two rounds. *)
Lemma init_round_counts_a_split_twice_witness :
  exists p1 dummy d1 deck1 p' dealer' deck',
    deal_and_split (N:=Q) Sample.hi_lo Sample.shuffled Sample.pairs
      Sample.player Dealer.new
      (Sample.shoe [Card.R8; Card.R8; Card.R10; Card.R6; Card.R10; Card.R9;
                    Card.R5; Card.R4; Card.R9; Card.R6])
    = Ok (p1, Some dummy, d1, deck1) /\
    init_round (N:=Q) Sample.hi_lo Sample.shuffled Sample.hard Sample.soft Sample.pairs 30
      Sample.player Dealer.new
      (Sample.shoe [Card.R8; Card.R8; Card.R10; Card.R6; Card.R10; Card.R9;
                    Card.R5; Card.R4; Card.R9; Card.R6])
    = Ok (p', dealer', deck') /\
    (counters_ok p' /\ BasicPlayer.rounds p' = BasicPlayer.rounds Sample.player + 2).
Proof.
  eexists _, _, _, _, _, _, _. split; [run|]. split; [run|].
  eapply (init_round_counts_a_split_twice Sample.hi_lo Sample.shuffled Sample.hard
            Sample.soft Sample.pairs 30 Sample.player Dealer.new
            (Sample.shoe [Card.R8; Card.R8; Card.R10; Card.R6; Card.R10; Card.R9;
                          Card.R5; Card.R4; Card.R9; Card.R6])
            _ (Some _)); close.
Defined.

(** Three rounds on a shoe that reshuffles. *)
Lemma play_rounds_tally_witness :
  exists p' dealer' deck',
    play_rounds (N:=Q) Sample.hi_lo Sample.shuffled Sample.hard Sample.soft Sample.pairs
      30 3 Sample.player Dealer.new (Sample.shoe [Card.R8; Card.R8; Card.R10; Card.R6])
    = Ok (p', dealer', deck') /\
    (counters_ok p' /\ tallies_nonneg p' /\
     BasicPlayer.rounds Sample.player + Z.of_nat 3 <= BasicPlayer.rounds p'
       <= BasicPlayer.rounds Sample.player + 2 * Z.of_nat 3 /\
     ((0 < 3)%nat ->
      BasicPlayer.hand p' = Hand.new /\ Dealer.hand dealer' = Hand.new)).
Proof.
  eexists _, _, _. split; [run|].
  eapply (play_rounds_tally Sample.hi_lo Sample.shuffled Sample.hard Sample.soft Sample.pairs
           30 3 Sample.player Dealer.new
           (Sample.shoe [Card.R8; Card.R8; Card.R10; Card.R6])).
  - reflexivity.
  - unfold tallies_nonneg. cbn. lia.
  - close.
Defined.

Lemma session_never_spins_witness :
  play_rounds (N:=Q) Sample.hi_lo Sample.shuffled Sample.hard Sample.soft Sample.pairs
    23 1000 Sample.player Dealer.new (Sample.shoe [Card.R8; Card.R8; Card.R10; Card.R6])
  <> Raise OutOfFuel.
Proof.
  eapply (session_never_spins Sample.hi_lo Sample.shuffled Sample.hard Sample.soft Sample.pairs).
  - exact sample_hard_known.
  - exact sample_soft_known.
  - exact sample_pairs_total.
  - reflexivity.
  - split; vm_compute; discriminate.
  - apply le_n.
Defined.

(** Ten and five, a six: the 21 that is settled is the cards' 21. *)
Lemma unsplit_round_settles_the_cards_witness :
  exists p1 d1 deck1 p2 d2 deck2,
    deal_and_split (N:=Q) Sample.hi_lo Sample.shuffled Sample.pairs
      Sample.player Dealer.new
      (Sample.shoe [Card.R10; Card.R5; Card.R10; Card.R6; Card.R6; Card.R5])
    = Ok (p1, None, d1, deck1) /\
    round_play Sample.hi_lo Sample.shuffled Sample.hard Sample.soft 30 p1 d1 deck1 false
    = Ok (p2, d2, deck2) /\
    (hand_consistent (BasicPlayer.hand p1) /\ hand_consistent (BasicPlayer.hand p2)).
Proof.
  eexists _, _, _, _, _, _. split; [run|]. split; [run|].
  eapply (unsplit_round_settles_the_cards Sample.hi_lo Sample.shuffled Sample.hard
            Sample.soft Sample.pairs 30 Sample.player Dealer.new
            (Sample.shoe [Card.R10; Card.R5; Card.R10; Card.R6; Card.R6; Card.R5]));
    close.
Defined.
